(** * Road-vision pipeline

    A shallow embedding of the three programs of the repository:

    - [Edge]  : [edge/app/usecases/data_processing.py], the road-state
                classifier and the processing step built on it;
    - [Agent] : [agent/src/file_datasource.py], the cyclic reader of the
                three sensor files;
    - [Store] : [store/main.py], the subscription registry and the CRUD
                endpoints over the [processed_agent_data] table.

    Python integers are [Z], strings are [string], dictionaries are [gmap],
    sets are [gset].  Code that raises is modelled by an outcome type that
    carries the Python exception class, and code that mutates an object by
    explicit state passing: an exception leaves the mutations made so far
    in place, as in Python. *)

From stdpp Require Import gmap strings list.
From Stdlib Require Import ZArith Lia.

Local Open Scope Z_scope.
Local Open Scope string_scope.

(** ** Exceptions and outcomes *)

(** The exception classes that the modelled code can raise. *)
Inductive exn : Set :=
  | StopIteration
  | ValueError
  | TypeError
  | OverflowError
  | KeyError
  | AttributeError
  | FileNotFoundError
  | DetachedInstanceError
  | ObjectDeletedError
  | ValidationError
  | DataError
  | IntegrityError
  | WebSocketDisconnect
  | HTTPException (status_code : Z).

#[global] Instance exn_eq_dec : EqDecision exn.
Proof. solve_decision. Defined.

Inductive outcome (A : Type) : Type :=
  | Ok (a : A)
  | Raise (e : exn).
Arguments Ok {A} a.
Arguments Raise {A} e.

(** The outcome of a call that returns. *)
Definition is_ok {A} (o : outcome A) : Prop := exists a, o = Ok a.

(** A statement over a mutable object of type [S]: the outcome and the
    object as the statement leaves it. *)
Definition M (S A : Type) : Type := S -> outcome A * S.

Definition ret {S A} (a : A) : M S A := fun s => (Ok a, s).
Definition bind {S A B} (m : M S A) (k : A -> M S B) : M S B :=
  fun s => match m s with
           | (Ok a, s') => k a s'
           | (Raise e, s') => (Raise e, s')
           end.
(** [try: m except e: h] *)
Definition try_except {S A} (m : M S A) (e : exn) (h : M S A) : M S A :=
  fun s => match m s with
           | (Ok a, s') => (Ok a, s')
           | (Raise e', s') =>
               if decide (e' = e) then h s' else (Raise e', s')
           end.

Notation "x <- m ;; k" := (bind m (fun x => k))
  (at level 100, m at next level, right associativity).
Notation "m ;;; k" := (bind m (fun _ => k))
  (at level 100, right associativity).

(** ** edge/app/usecases/data_processing.py *)

Module Edge.

Section Entities.
Variables Float DateTime : Type.

(** Modelled from the spec: [app.entities.agent_data] is not among the
    sources; an accelerometer sample is an integer triple. *)
Record AccelerometerData : Type := mkAccelerometerData {
  x : Z;
  y : Z;
  z : Z
}.

(** Modelled from the spec: a GPS sample is a pair of floats. *)
Record GpsData : Type := mkGpsData {
  longitude : Float;
  latitude : Float
}.

(** Modelled from the spec: the reading handed to the processing step. *)
Record AgentData : Type := mkAgentData {
  user_id : Z;
  accelerometer : AccelerometerData;
  gps : GpsData;
  timestamp : DateTime
}.

(** [ProcessedAgentData(road_state=..., agent_data=...)]: the two fields
    the constructor call of [process_agent_data] fills.  The record has no
    identifier: the store assigns one when it persists the record. *)
Record ProcessedAgentData : Type := mkProcessedAgentData {
  road_state : string;
  agent_data : AgentData
}.

Definition classify_road_state (accelerometer_data : AccelerometerData) : string :=
  let z_axis_value := z accelerometer_data in
  if bool_decide (z_axis_value < 10000) then "bumpy"
  else if bool_decide (z_axis_value > 16600) then "hilly"
  else "normal".

Definition process_agent_data (agent_data : AgentData) : ProcessedAgentData :=
  let road_state := classify_road_state (accelerometer agent_data) in
  let processed_data := mkProcessedAgentData road_state agent_data in
  processed_data.

End Entities.

Arguments mkGpsData {Float}.
Arguments longitude {Float}.
Arguments latitude {Float}.
Arguments mkAgentData {Float DateTime}.
Arguments user_id {Float DateTime}.
Arguments accelerometer {Float DateTime}.
Arguments gps {Float DateTime}.
Arguments timestamp {Float DateTime}.
Arguments mkProcessedAgentData {Float DateTime}.
Arguments road_state {Float DateTime}.
Arguments agent_data {Float DateTime}.
Arguments process_agent_data {Float DateTime}.

End Edge.

(** ** agent/src/file_datasource.py *)

Module Agent.

(** A line of a sensor file, as the list of fields that [csv.reader] makes
    of it (an empty line is the empty list). *)
Definition row : Type := list string.

(** A text file object: the lines of the file, the number of lines already
    consumed, and whether the object has been closed. *)
Record file : Type := mkFile {
  lines : list row;
  cursor : nat;
  closed : bool
}.

(** [next(f)] *)
Definition file_next : M file row := fun f =>
  if closed f then (Raise ValueError, f)
  else match lines f !! cursor f with
       | Some l => (Ok l, mkFile (lines f) (S (cursor f)) (closed f))
       | None => (Raise StopIteration, f)
       end.

(** [f.seek(0)] *)
Definition file_seek0 : M file unit := fun f =>
  if closed f then (Raise ValueError, f)
  else (Ok tt, mkFile (lines f) 0%nat (closed f)).

(** [f.close()] *)
Definition file_close (f : file) : file := mkFile (lines f) (cursor f) true.

Section FileDatasource.
Variables Float DateTime : Type.
(** [int(s)] and [float(s)] on a string: [None] stands for [ValueError]. *)
Variable int_of_str : string -> option Z.
Variable float_of_str : string -> option Float.
(** [int(f)] on a float: raises on NaN ([ValueError]) and on the
    infinities ([OverflowError]). *)
Variable int_of_float : Float -> outcome Z.
(** [config.USER_ID] *)
Variable USER_ID : Z.
(** The files that [open] finds, by name. *)
Variable fs : string -> option (list row).

(** Modelled from the spec: the [domain] classes are not among the sources;
    their fields are those of the spec's data model, in the order of the
    constructor calls of this file. *)
Record Accelerometer : Type := mkAccelerometer { x : Z; y : Z; z : Z }.
Record Gps : Type := mkGps { longitude : Float; latitude : Float }.
Record Parking : Type := mkParking { empty_count : Z; gps_of : Gps }.
Record AggregatedData : Type := mkAggregatedData {
  accelerometer : Accelerometer;
  gps : Gps;
  parking : Parking;
  timestamp : DateTime;
  user_id : Z
}.

Record FileDatasource : Type := mkFileDatasource {
  accelerometer_filename : string;
  gps_filename : string;
  parking_filename : string;
  accelerometer_file : option file;
  gps_file : option file;
  parking_file : option file
}.

(** [FileDatasource(accelerometer_filename, gps_filename, parking_filename)] *)
Definition init (a g p : string) : FileDatasource :=
  mkFileDatasource a g p None None None.

(** The three file attributes of the object. *)
Inductive stream : Set := AccelerometerS | GpsS | ParkingS.

Definition get_file (s : stream) (ds : FileDatasource) : option file :=
  match s with
  | AccelerometerS => accelerometer_file ds
  | GpsS => gps_file ds
  | ParkingS => parking_file ds
  end.

Definition set_file (s : stream) (f : option file) (ds : FileDatasource)
  : FileDatasource :=
  match s with
  | AccelerometerS =>
      mkFileDatasource (accelerometer_filename ds) (gps_filename ds)
        (parking_filename ds) f (gps_file ds) (parking_file ds)
  | GpsS =>
      mkFileDatasource (accelerometer_filename ds) (gps_filename ds)
        (parking_filename ds) (accelerometer_file ds) f (parking_file ds)
  | ParkingS =>
      mkFileDatasource (accelerometer_filename ds) (gps_filename ds)
        (parking_filename ds) (accelerometer_file ds) (gps_file ds) f
  end.

Definition filename_of (s : stream) (ds : FileDatasource) : string :=
  match s with
  | AccelerometerS => accelerometer_filename ds
  | GpsS => gps_filename ds
  | ParkingS => parking_filename ds
  end.

(** A file operation on the object held by one of the attributes; [e] is
    what Python raises when the attribute is still [None]. *)
Definition on_file {A} (e : exn) (s : stream) (m : M file A)
  : M FileDatasource A := fun ds =>
  match get_file s ds with
  | None => (Raise e, ds)
  | Some f => let (r, f') := m f in (r, set_file s (Some f') ds)
  end.

(** [next(self.<s>_file)], also what [next(csv_reader)] does on a reader
    made over that file. *)
Definition next_of (s : stream) : M FileDatasource row :=
  on_file TypeError s file_next.

(** [self.<s>_file.seek(0)] *)
Definition seek0_of (s : stream) : M FileDatasource unit :=
  on_file AttributeError s file_seek0.

(** [self.<s>_file = open(self.<s>_filename, 'r')] *)
Definition open_of (s : stream) : M FileDatasource unit := fun ds =>
  match fs (filename_of s ds) with
  | None => (Raise FileNotFoundError, ds)
  | Some ls => (Ok tt, set_file s (Some (mkFile ls 0%nat false)) ds)
  end.

(** [csv_reader = reader(self.<s>_file)]: the reader asks its argument
    for an iterator, which [None] does not have ([TypeError]) and a closed
    file refuses ([ValueError], as on every operation on a closed file).
    A reader keeps no position of its own: the rows it yields are the
    lines that [next] takes from the file. *)
Definition reader (s : stream) : M FileDatasource unit := fun ds =>
  match get_file s ds with
  | None => (Raise TypeError, ds)
  | Some f => if closed f then (Raise ValueError, ds) else (Ok tt, ds)
  end.

Definition startReading : M FileDatasource unit :=
  open_of AccelerometerS ;;;
  _ <- next_of AccelerometerS ;;
  open_of GpsS ;;;
  _ <- next_of GpsS ;;
  open_of ParkingS ;;;
  _ <- next_of ParkingS ;;
  ret tt.

(** [if self.<s>_file: self.<s>_file.close()] *)
Definition close_of (s : stream) : M FileDatasource unit := fun ds =>
  match get_file s ds with
  | None => (Ok tt, ds)
  | Some f => (Ok tt, set_file s (Some (file_close f)) ds)
  end.

Definition stopReading : M FileDatasource unit :=
  close_of AccelerometerS ;;;
  close_of GpsS ;;;
  close_of ParkingS.

(** The part that the three [_read_*_data] methods share: make a reader,
    take the next row, and at the end of the file go back to its start,
    skip the header and take the first row. *)
Definition read_row (s : stream) : M FileDatasource row :=
  reader s ;;;
  try_except (next_of s) StopIteration
    (seek0_of s ;;;
     _ <- next_of s ;;
     next_of s).

(** [a, b = map(conv, row)]: fewer or more than two fields, or a field
    that [conv] rejects, raise [ValueError]. *)
Definition unpack2 {A} (conv : string -> option A) (r : row)
  : outcome (A * A) :=
  match r with
  | [a; b] =>
      match conv a, conv b with
      | Some a', Some b' => Ok (a', b')
      | _, _ => Raise ValueError
      end
  | _ => Raise ValueError
  end.

(** [a, b, c = map(conv, row)] *)
Definition unpack3 {A} (conv : string -> option A) (r : row)
  : outcome (A * A * A) :=
  match r with
  | [a; b; c] =>
      match conv a, conv b, conv c with
      | Some a', Some b', Some c' => Ok (a', b', c')
      | _, _, _ => Raise ValueError
      end
  | _ => Raise ValueError
  end.

(** An outcome computed without touching the object. *)
Definition lift {S A} (o : outcome A) : M S A := fun s => (o, s).

Definition _read_accelerometer_data : M FileDatasource Accelerometer :=
  row <- read_row AccelerometerS ;;
  xyz <- lift (unpack3 int_of_str row) ;;
  let '(x, y, z) := xyz in
  ret (mkAccelerometer x y z).

Definition _read_gps_data : M FileDatasource Gps :=
  row <- read_row GpsS ;;
  lon_lat <- lift (unpack2 float_of_str row) ;;
  let '(longitude, latitude) := lon_lat in
  ret (mkGps longitude latitude).

Definition _read_parking_data : M FileDatasource Parking :=
  row <- read_row ParkingS ;;
  cnt_lon_lat <- lift (unpack3 float_of_str row) ;;
  let '(empty_count, longitude, latitude) := cnt_lon_lat in
  n <- lift (int_of_float empty_count) ;;
  ret (mkParking n (mkGps longitude latitude)).

(** [read]; [now] is what [datetime.now()] returns in this call. *)
Definition read (now : DateTime) : M FileDatasource AggregatedData :=
  accelerometer_data <- _read_accelerometer_data ;;
  gps_data <- _read_gps_data ;;
  parking_data <- _read_parking_data ;;
  ret (mkAggregatedData accelerometer_data gps_data parking_data now USER_ID).

(** The object after a run of calls of [read], one per clock value,
    whatever their outcomes. *)
Fixpoint after_reads (nows : list DateTime) (ds : FileDatasource)
  : FileDatasource :=
  match nows with
  | [] => ds
  | now :: rest => after_reads rest (snd (read now ds))
  end.

(** *** What the statements of the properties speak of *)

(** The conversions that the three [_read_*_data] methods apply to the
    row they have taken. *)
Definition decode_accelerometer (r : row) : outcome Accelerometer :=
  match unpack3 int_of_str r with
  | Ok (x, y, z) => Ok (mkAccelerometer x y z)
  | Raise e => Raise e
  end.

Definition decode_gps (r : row) : outcome Gps :=
  match unpack2 float_of_str r with
  | Ok (longitude, latitude) => Ok (mkGps longitude latitude)
  | Raise e => Raise e
  end.

Definition decode_parking (r : row) : outcome Parking :=
  match unpack3 float_of_str r with
  | Ok (empty_count, longitude, latitude) =>
      match int_of_float empty_count with
      | Ok n => Ok (mkParking n (mkGps longitude latitude))
      | Raise e => Raise e
      end
  | Raise e => Raise e
  end.

(** A row that is not [n] fields that [conv] accepts: a wrong field
    count, or a field that is no number. *)
Definition malformed {A} (n : nat) (conv : string -> option A) (r : row)
  : Prop :=
  length r ≠ n \/ exists field, field ∈ r /\ conv field = None.

(** The index of the line that the next [_read_*_data] converts: the line
    at the cursor, or after the last line the first line below the
    header. *)
Definition next_index (f : file) : nat :=
  if decide (cursor f < length (lines f))%nat then cursor f else 1%nat.

(** The cursor of a file with [n] data rows [k] reads after
    [startReading]. *)
Definition cursor_after (n k : nat) : nat :=
  match k with
  | O => 1%nat
  | S k' => S (S (k' mod n))
  end.

(** The object [k] reads after a [startReading] that found the three
    files with the given lines. *)
Definition opened_after (a g p : string) (la lg lp : list row) (k : nat)
  : FileDatasource :=
  mkFileDatasource a g p
    (Some (mkFile la (cursor_after (length la - 1) k) false))
    (Some (mkFile lg (cursor_after (length lg - 1) k) false))
    (Some (mkFile lp (cursor_after (length lp - 1) k) false)).

(** What a file object is apart from its cursor. *)
Definition file_content (f : file) : list row * bool := (lines f, closed f).

(** Two states of the object with the same file names and, attribute by
    attribute, file objects that differ by their cursors at most. *)
Definition same_files (ds ds' : FileDatasource) : Prop :=
  accelerometer_filename ds' = accelerometer_filename ds /\
  gps_filename ds' = gps_filename ds /\
  parking_filename ds' = parking_filename ds /\
  forall s, file_content <$> get_file s ds' = file_content <$> get_file s ds.

End FileDatasource.

Arguments mkGps {Float}.
Arguments mkParking {Float}.
Arguments mkAggregatedData {Float DateTime}.
Arguments accelerometer {Float DateTime}.
Arguments gps {Float DateTime}.
Arguments parking {Float DateTime}.
Arguments timestamp {Float DateTime}.
Arguments user_id {Float DateTime}.
Arguments _read_gps_data {Float}.
Arguments _read_parking_data {Float}.
Arguments read {Float DateTime}.
Arguments after_reads {Float DateTime}.
Arguments decode_gps {Float}.
Arguments decode_parking {Float}.

(** *** A small installation, for the examples *)

(** Decimal literals, as [int] and [float] read them; the sensor files of
    the examples hold whole numbers only. *)
Definition digit_of (c : Ascii.ascii) : option Z :=
  let n := Z.of_nat (Ascii.nat_of_ascii c) in
  if bool_decide (48 <= n <= 57) then Some (n - 48) else None.

Fixpoint digits (acc : Z) (s : string) : option Z :=
  match s with
  | EmptyString => Some acc
  | String c s' =>
      match digit_of c with
      | Some d => digits (10 * acc + d) s'
      | None => None
      end
  end.

Definition decimal (s : string) : option Z :=
  match s with
  | EmptyString => None
  | String c s' =>
      if Ascii.eqb c (Ascii.ascii_of_nat 45) (* minus *)
      then match s' with
           | EmptyString => None
           | _ => Z.opp <$> digits 0 s'
           end
      else digits 0 s
  end.

Definition example_fs (name : string) : option (list row) :=
  if String.eqb name "accelerometer.csv" then
    Some [ ["x"; "y"; "z"]; ["5000"; "0"; "9000"]; ["12"; "7"; "16700"] ]
  else if String.eqb name "gps.csv" then
    Some [ ["longitude"; "latitude"]; ["30"; "50"]; ["31"; "51"]; ["32"; "52"] ]
  else if String.eqb name "parking.csv" then
    Some [ ["empty_count"; "longitude"; "latitude"]; ["3"; "30"; "50"] ]
  else if String.eqb name "bad_accelerometer.csv" then
    Some [ ["x"; "y"; "z"]; ["5000"; "oops"; "9000"]; ["12"; "7"; "16700"] ]
  else None.

Definition example_read : Z -> M FileDatasource (AggregatedData Z Z) :=
  read decimal decimal Ok 42.

Definition example_start : M FileDatasource unit := startReading example_fs.

Definition example_source : FileDatasource :=
  init "accelerometer.csv" "gps.csv" "parking.csv".

Definition example_bad_source : FileDatasource :=
  init "bad_accelerometer.csv" "gps.csv" "parking.csv".

End Agent.

(** ** store/main.py *)

Module Store.

(** A [WebSocket] object, by its identity. *)
Definition WebSocket : Type := positive.

(** The peers of the open sockets: the sockets whose [send_json] raises,
    with the exception, and the messages that were sent, oldest first. *)
Record network : Type := mkNetwork {
  failing : gmap WebSocket exn;
  sent : list (WebSocket * string)
}.

(** [await websocket.send_json(msg)] *)
Definition send_json (websocket : WebSocket) (msg : string) : M network unit :=
  fun n =>
    match failing n !! websocket with
    | Some e => (Raise e, n)
    | None => (Ok tt, mkNetwork (failing n) (sent n ++ [(websocket, msg)]))
    end.

(** [for a in l: body(a)] *)
Fixpoint for_each {S A} (l : list A) (body : A -> M S unit) : M S unit :=
  match l with
  | [] => ret tt
  | a :: rest => body a ;;; for_each rest body
  end.

Section Subscriptions.
(** The type of the published data and [json.dumps] on it, which raises
    [TypeError] on data that has no JSON form, such as an instance of a
    pydantic model. *)
Variable Data : Type.
Variable json_dumps : Data -> outcome string.
(** The order in which Python iterates over a set: some enumeration of
    its elements. *)
Variable iteration_order : gset WebSocket -> list WebSocket.

(** [websocket_endpoint], from [accept] to the receive loop: the socket
    is added to the set of its user. *)
Definition subscribe (user_id : Z) (websocket : WebSocket)
    (subscriptions : gmap Z (gset WebSocket)) : gmap Z (gset WebSocket) :=
  let subscriptions :=
    if decide (user_id ∈ dom subscriptions) then subscriptions
    else <[user_id := ∅]> subscriptions in
  <[user_id := (subscriptions !!! user_id) ∪ {[websocket]}]> subscriptions.

(** [websocket_endpoint], the handler of [WebSocketDisconnect]:
    [subscriptions[user_id].remove(websocket)].  Both the subscript and
    [set.remove] raise [KeyError] when what they look for is absent. *)
Definition unsubscribe (user_id : Z) (websocket : WebSocket)
  : M (gmap Z (gset WebSocket)) unit := fun subscriptions =>
  match subscriptions !! user_id with
  | None => (Raise KeyError, subscriptions)
  | Some s =>
      if decide (websocket ∈ s)
      then (Ok tt, <[user_id := s ∖ {[websocket]}]> subscriptions)
      else (Raise KeyError, subscriptions)
  end.

Definition send_data_to_subscribers
    (subscriptions : gmap Z (gset WebSocket)) (user_id : Z) (data : Data)
  : M network unit :=
  match subscriptions !! user_id with
  | Some s =>
      for_each (iteration_order s)
        (fun websocket n =>
           match json_dumps data with
           | Ok msg => send_json websocket msg n
           | Raise e => (Raise e, n)
           end)
  | None => ret tt
  end.

(** The messages that the sockets [new] get of the data: one each, unless
    the data has no JSON form. *)
Definition messages (data : Data) (new : list WebSocket)
  : list (WebSocket * string) :=
  match json_dumps data with
  | Ok msg => map (fun w => (w, msg)) new
  | Raise _ => []
  end.

(** [websocket_endpoint] from its first to its last statement, the other
    connections left aside: the socket is registered; the receive loop has
    no exit of its own and ends when [receive_text] raises, with
    [ends_with]; the handler of [WebSocketDisconnect] removes the socket,
    and any other exception leaves the function as it is. *)
Definition websocket_endpoint (websocket : WebSocket) (user_id : Z)
    (ends_with : exn) : M (gmap Z (gset WebSocket)) unit :=
  fun subscriptions =>
    try_except (fun subscriptions => (Raise ends_with, subscriptions))
      WebSocketDisconnect
      (unsubscribe user_id websocket)
      (subscribe user_id websocket subscriptions).

End Subscriptions.

(** *** The registry under several connections *)



Section Crud.
Variables Float DateTime : Type.

(** The pydantic models. *)
Record AccelerometerData : Type := mkAccelerometerData {
  x : Float; y : Float; z : Float
}.
Record GpsData : Type := mkGpsData {
  latitude : Float; longitude : Float
}.
Record AgentData : Type := mkAgentData {
  user_id : Z;
  accelerometer : AccelerometerData;
  gps : GpsData;
  timestamp : DateTime
}.
Record ProcessedAgentData : Type := mkProcessedAgentData {
  road_state : string;
  agent_data : AgentData
}.
(** [ProcessedAgentDataWithId(ProcessedAgentData)] *)
Record ProcessedAgentDataWithId : Type := mkProcessedAgentDataWithId {
  id : Z;
  with_id_road_state : string;
  with_id_agent_data : AgentData
}.

(** A Python value, as far as [data.dict()] needs them. *)
#[local] Set Warnings "-register-all".
Inductive pyval : Type :=
  | PStr (s : string)
  | PInt (n : Z)
  | PFloat (f : Float)
  | PDateTime (t : DateTime)
  | PDict (items : list (string * pyval)).

(** [data.dict()]: the model as a dictionary, nested models included. *)
Definition dict (data : ProcessedAgentData) : list (string * pyval) :=
  let a := agent_data data in
  [ ("road_state", PStr (road_state data));
    ("agent_data",
      PDict [ ("user_id", PInt (user_id a));
              ("accelerometer",
                PDict [ ("x", PFloat (x (accelerometer a)));
                        ("y", PFloat (y (accelerometer a)));
                        ("z", PFloat (z (accelerometer a))) ]);
              ("gps",
                PDict [ ("latitude", PFloat (latitude (gps a)));
                        ("longitude", PFloat (longitude (gps a))) ]);
              ("timestamp", PDateTime (timestamp a)) ]) ].

(** The values of the columns of [processed_agent_data] other than the
    key, as the attributes of an instance hold them: Python values, with a
    user of any size and a timestamp with or without time zone.  What a row
    keeps of them is [stored] below, and [insert_values] tells which of
    them the table takes. *)
Record columns : Type := mkColumns {
  col_road_state : string;
  col_user_id : Z;
  col_x : Float;
  col_y : Float;
  col_z : Float;
  col_latitude : Float;
  col_longitude : Float;
  col_timestamp : DateTime
}.

(** The database: the table by primary key, and the next value of the
    sequence behind the autoincremented [id].  Rows are only inserted
    through the sequence. *)
Record database : Type := mkDatabase {
  table : gmap Z columns;
  next_id : Z
}.

(** An instance of [ProcessedAgentDataInDB]: its key once it has one, the
    values of its column attributes, whether these are expired (to be
    loaded again before use), whether the instance is attached to an open
    session, and the attributes put on it that are no columns. *)
Record ProcessedAgentDataInDB : Type := mkInDB {
  db_id : option Z;
  db_columns : columns;
  db_expired : bool;
  db_attached : bool;
  db_other : list (string * pyval)
}.

Definition set_columns (c : columns) (o : ProcessedAgentDataInDB)
  : ProcessedAgentDataInDB :=
  mkInDB (db_id o) c (db_expired o) (db_attached o) (db_other o).

(** [setattr(o, key, value)]: a column attribute takes the value, any
    other name becomes a plain attribute of the instance.  (The callers
    pass a column name only with a value of the column's type.) *)
Definition setattr (o : ProcessedAgentDataInDB) (key : string) (value : pyval)
  : ProcessedAgentDataInDB :=
  let c := db_columns o in
  match key, value with
  | "road_state", PStr v =>
      set_columns (mkColumns v (col_user_id c) (col_x c) (col_y c) (col_z c)
        (col_latitude c) (col_longitude c) (col_timestamp c)) o
  | "user_id", PInt v =>
      set_columns (mkColumns (col_road_state c) v (col_x c) (col_y c) (col_z c)
        (col_latitude c) (col_longitude c) (col_timestamp c)) o
  | "x", PFloat v =>
      set_columns (mkColumns (col_road_state c) (col_user_id c) v (col_y c)
        (col_z c) (col_latitude c) (col_longitude c) (col_timestamp c)) o
  | "y", PFloat v =>
      set_columns (mkColumns (col_road_state c) (col_user_id c) (col_x c) v
        (col_z c) (col_latitude c) (col_longitude c) (col_timestamp c)) o
  | "z", PFloat v =>
      set_columns (mkColumns (col_road_state c) (col_user_id c) (col_x c)
        (col_y c) v (col_latitude c) (col_longitude c) (col_timestamp c)) o
  | "latitude", PFloat v =>
      set_columns (mkColumns (col_road_state c) (col_user_id c) (col_x c)
        (col_y c) (col_z c) v (col_longitude c) (col_timestamp c)) o
  | "longitude", PFloat v =>
      set_columns (mkColumns (col_road_state c) (col_user_id c) (col_x c)
        (col_y c) (col_z c) (col_latitude c) v (col_timestamp c)) o
  | "timestamp", PDateTime v =>
      set_columns (mkColumns (col_road_state c) (col_user_id c) (col_x c)
        (col_y c) (col_z c) (col_latitude c) (col_longitude c) v) o
  | _, _ =>
      mkInDB (db_id o) c (db_expired o) (db_attached o)
        ((key, value) :: db_other o)
  end.

(** [ProcessedAgentDataInDB(road_state=..., user_id=..., x=..., ...)] as
    [create_processed_agent_data] calls it: a new instance, without a key
    and in no session. *)
Definition new_in_db (item : ProcessedAgentData) : ProcessedAgentDataInDB :=
  mkInDB None
    (mkColumns (road_state item)
       (user_id (agent_data item))
       (x (accelerometer (agent_data item)))
       (y (accelerometer (agent_data item)))
       (z (accelerometer (agent_data item)))
       (latitude (gps (agent_data item)))
       (longitude (gps (agent_data item)))
       (timestamp (agent_data item)))
    false false [].

(** [session.add(o)] on a new instance. *)
Definition attach (o : ProcessedAgentDataInDB) : ProcessedAgentDataInDB :=
  mkInDB (db_id o) (db_columns o) (db_expired o) true (db_other o).

(** What [session.commit()] does to every instance of the session once
    the transaction is committed ([expire_on_commit], which
    [sessionmaker(bind=engine)] leaves on). *)
Definition expire (o : ProcessedAgentDataInDB) : ProcessedAgentDataInDB :=
  mkInDB (db_id o) (db_columns o) true (db_attached o) (db_other o).

(** What leaving [with SessionLocal() as session] does to every instance
    of the session: the session is closed. *)
Definition detach (o : ProcessedAgentDataInDB) : ProcessedAgentDataInDB :=
  mkInDB (db_id o) (db_columns o) (db_expired o) false (db_other o).

(** What a [DateTime] column, which is without time zone, keeps of a
    timestamp: a naive one as it is, an aware one as the naive time that the
    database makes of it. *)
Variable without_time_zone : DateTime -> DateTime.

(** How many values of the sequence an INSERT that fails has used up: the
    database does not give them back when the transaction is rolled
    back. *)
Variable failed_insert_uses : list columns -> database -> nat.

(** The range of an [Integer] column. *)
Definition int4 (n : Z) : Prop := -2147483648 <= n <= 2147483647.

(** The values as the row keeps them. *)
Definition stored (c : columns) : columns :=
  mkColumns (col_road_state c) (col_user_id c) (col_x c) (col_y c) (col_z c)
    (col_latitude c) (col_longitude c) (without_time_zone (col_timestamp c)).

(** The values that an INSERT puts in the row; a user that is out of the
    range of its column is refused. *)
Definition insert_values (c : columns) : outcome columns :=
  if bool_decide (int4 (col_user_id c)) then Ok (stored c)
  else Raise DataError.

(** The INSERT of a pending instance: the values must fit their columns;
    the key comes from the sequence, which ends where the range of the
    [Integer] column [id] ends, and must be free. *)
Definition flush_insert (o : ProcessedAgentDataInDB) (db : database)
  : outcome (ProcessedAgentDataInDB * database) :=
  let k := next_id db in
  match insert_values (db_columns o) with
  | Raise e => Raise e
  | Ok c =>
      if bool_decide (int4 k) then
        match table db !! k with
        | Some _ => Raise IntegrityError
        | None =>
            Ok (mkInDB (Some k) (db_columns o) (db_expired o) (db_attached o)
                  (db_other o),
                mkDatabase (<[k := c]> (table db)) (k + 1))
        end
      else Raise DataError
  end.

(** The INSERTs of the pending instances, in the order of [add_all], up
    to the first that fails. *)
Fixpoint flush_inserts (os : list ProcessedAgentDataInDB) (db : database)
  : outcome (list ProcessedAgentDataInDB * database) :=
  match os with
  | [] => Ok ([], db)
  | o :: rest =>
      match flush_insert o db with
      | Raise e => Raise e
      | Ok (o', db') =>
          match flush_inserts rest db' with
          | Raise e => Raise e
          | Ok (rest', db'') => Ok (o' :: rest', db'')
          end
      end
  end.

(** The UPDATE of a persistent instance: its row takes the values of the
    column attributes. *)
Definition flush_update (o : ProcessedAgentDataInDB) (db : database)
  : database :=
  match db_id o with
  | Some k => mkDatabase (<[k := db_columns o]> (table db)) (next_id db)
  | None => db
  end.

(** [session.query(ProcessedAgentDataInDB).filter(
       ProcessedAgentDataInDB.id == k).first()] *)
Definition query_first (db : database) (k : Z)
  : option ProcessedAgentDataInDB :=
  match table db !! k with
  | Some c => Some (mkInDB (Some k) c false true [])
  | None => None
  end.

(** Reading a column attribute needs the attributes loaded: an expired
    instance loads them from its row if it is attached to a session, and
    raises if it is not. *)
Definition load (db : database) (o : ProcessedAgentDataInDB)
  : outcome ProcessedAgentDataInDB :=
  if db_expired o then
    if db_attached o then
      match db_id o with
      | Some k =>
          match table db !! k with
          | Some c => Ok (mkInDB (Some k) c false true (db_other o))
          | None => Raise ObjectDeletedError
          end
      | None => Raise ObjectDeletedError
      end
    else Raise DetachedInstanceError
  else Ok o.

Definition db_model_to_response_model (db : database)
    (db_model : ProcessedAgentDataInDB) : outcome ProcessedAgentDataWithId :=
  match load db db_model with
  | Raise e => Raise e
  | Ok o =>
      let c := db_columns o in
      match db_id o with
      | None => Raise ValidationError
      | Some k =>
          Ok (mkProcessedAgentDataWithId k (col_road_state c)
                (mkAgentData (col_user_id c)
                   (mkAccelerometerData (col_x c) (col_y c) (col_z c))
                   (mkGpsData (col_latitude c) (col_longitude c))
                   (col_timestamp c)))
      end
  end.

Fixpoint db_models_to_response_models (db : database)
    (db_models : list ProcessedAgentDataInDB)
  : outcome (list ProcessedAgentDataWithId) :=
  match db_models with
  | [] => Ok []
  | db_model :: rest =>
      match db_model_to_response_model db db_model with
      | Raise e => Raise e
      | Ok r =>
          match db_models_to_response_models db rest with
          | Raise e => Raise e
          | Ok rs => Ok (r :: rs)
          end
      end
  end.

Definition create_processed_agent_data (data : list ProcessedAgentData)
  : M database (list ProcessedAgentDataWithId) := fun db =>
  let db_objects := map new_in_db data in
  (* with SessionLocal() as session: *)
  let db_objects := map attach db_objects in            (* add_all *)
  match flush_inserts db_objects db with                (* commit *)
  | Raise e =>
      (* the exception leaves the with block: the session rolls back *)
      (Raise e,
       mkDatabase (table db)
         (next_id db
          + Z.of_nat (failed_insert_uses (map db_columns db_objects) db)))
  | Ok (db_objects, db) =>
      let db_objects := map expire db_objects in
      (* the with block ends here *)
      let db_objects := map detach db_objects in
      (db_models_to_response_models db db_objects, db)
  end.

Definition read_processed_agent_data (processed_agent_data_id : Z)
  : M database ProcessedAgentDataWithId := fun db =>
  match query_first db processed_agent_data_id with
  | None => (Raise (HTTPException 404), db)
  | Some result => (db_model_to_response_model db result, db)
  end.

Definition update_processed_agent_data (processed_agent_data_id : Z)
    (data : ProcessedAgentData)
  : M database ProcessedAgentDataWithId := fun db =>
  match query_first db processed_agent_data_id with
  | None => (Raise (HTTPException 404), db)
  | Some db_data =>
      let db_data :=
        fold_left (fun o kv => setattr o (fst kv) (snd kv)) (dict data)
          db_data in
      let db := flush_update db_data db in               (* commit *)
      let db_data := expire db_data in
      match load db db_data with                         (* refresh *)
      | Raise e => (Raise e, db)
      | Ok db_data => (db_model_to_response_model db db_data, db)
      end
  end.

(** The order in which a SELECT without ORDER BY yields the rows of a
    table: some enumeration of them. *)
Variable scan_order : gmap Z columns -> list (Z * columns).

(** [session.query(ProcessedAgentDataInDB).all()] *)
Definition query_all (db : database) : list ProcessedAgentDataInDB :=
  map (fun kc => mkInDB (Some (fst kc)) (snd kc) false true [])
    (scan_order (table db)).

Definition list_processed_agent_data
  : M database (list ProcessedAgentDataWithId) := fun db =>
  let db_objects := query_all db in
  (db_models_to_response_models db db_objects, db).

(** The DELETE of a persistent instance. *)
Definition flush_delete (o : ProcessedAgentDataInDB) (db : database)
  : database :=
  match db_id o with
  | Some k => mkDatabase (delete k (table db)) (next_id db)
  | None => db
  end.

(** [session.delete(db_data); session.commit()]: the flush deletes the row
    and takes the instance out of the session, so that the commit does not
    expire it: its attributes stay as they were loaded. *)
Definition delete_processed_agent_data (processed_agent_data_id : Z)
  : M database ProcessedAgentDataWithId := fun db =>
  match query_first db processed_agent_data_id with
  | None => (Raise (HTTPException 404), db)
  | Some db_data =>
      let db := flush_delete db_data db in               (* commit *)
      let db_data := detach db_data in
      (db_model_to_response_model db db_data, db)
  end.

(** *** What the statements of the properties speak of *)

(** The sequence is ahead of every key of the table. *)
Definition sequence_ahead (db : database) : Prop :=
  forall k, is_Some (table db !! k) -> k < next_id db.

(** The sequence has [n] values left in the range of the column [id]. *)
Definition sequence_left (n : nat) (db : database) : Prop :=
  -2147483648 <= next_id db /\ next_id db + Z.of_nat n <= 2147483648.

(** The user of the record is in the range of its column. *)
Definition fits (item : ProcessedAgentData) : Prop :=
  int4 (user_id (agent_data item)).

(** The response that the row [c] of key [k] makes. *)
Definition response_of (k : Z) (c : columns) : ProcessedAgentDataWithId :=
  mkProcessedAgentDataWithId k (col_road_state c)
    (mkAgentData (col_user_id c)
       (mkAccelerometerData (col_x c) (col_y c) (col_z c))
       (mkGpsData (col_latitude c) (col_longitude c))
       (col_timestamp c)).

(** The row that [create_processed_agent_data] makes of a record. *)
Definition columns_of (item : ProcessedAgentData) : columns :=
  db_columns (new_in_db item).

(** The row [c] with another road state. *)
Definition with_road_state (v : string) (c : columns) : columns :=
  mkColumns v (col_user_id c) (col_x c) (col_y c) (col_z c)
    (col_latitude c) (col_longitude c) (col_timestamp c).

End Crud.

Arguments mkAccelerometerData {Float}.
Arguments mkGpsData {Float}.
Arguments mkAgentData {Float DateTime}.
Arguments mkProcessedAgentData {Float DateTime}.
Arguments mkProcessedAgentDataWithId {Float DateTime}.
Arguments mkColumns {Float DateTime}.
Arguments mkDatabase {Float DateTime}.
Arguments table {Float DateTime}.
Arguments next_id {Float DateTime}.
Arguments road_state {Float DateTime}.
Arguments agent_data {Float DateTime}.
Arguments create_processed_agent_data {Float DateTime}.
Arguments read_processed_agent_data {Float DateTime}.
Arguments update_processed_agent_data {Float DateTime}.
Arguments sequence_ahead {Float DateTime}.
Arguments response_of {Float DateTime}.
Arguments with_road_state {Float DateTime}.
Arguments db_columns {Float DateTime}.
Arguments new_in_db {Float DateTime}.
Arguments attach {Float DateTime}.
Arguments flush_inserts {Float DateTime}.
Arguments send_data_to_subscribers {Data}.
Arguments messages {Data}.
Arguments list_processed_agent_data {Float DateTime}.
Arguments delete_processed_agent_data {Float DateTime}.
Arguments columns_of {Float DateTime}.
Arguments int4 n : simpl never.
Arguments sequence_left {Float DateTime}.
Arguments fits {Float DateTime}.
Arguments stored {Float DateTime}.
Arguments col_user_id {Float DateTime}.
Arguments col_timestamp {Float DateTime}.
Arguments user_id {Float DateTime}.
Arguments timestamp {Float DateTime}.
Arguments accelerometer {Float DateTime}.
Arguments gps {Float DateTime}.

(** *** A small installation, for the examples *)

(** Two sockets of user 3. *)
Definition example_subscriptions : gmap Z (gset WebSocket) :=
  subscribe 3 2%positive (subscribe 3 1%positive ∅).

(** The peer of socket 1 is gone. *)
Definition example_network : network :=
  mkNetwork {[1%positive := WebSocketDisconnect]} [].

(** Two kinds of data to publish: [None], whose JSON form is [null], and
    a record, an instance of a pydantic model, which [json.dumps]
    refuses. *)
Inductive example_data : Type :=
  | DataNone
  | DataRecord (record : ProcessedAgentData Z Z).

Definition example_dumps (data : example_data) : outcome string :=
  match data with
  | DataNone => Ok "null"
  | DataRecord _ => Raise TypeError
  end.

(** Publishing to user 3 when the set of its sockets is iterated in the
    given order. *)
Definition example_publish (order : list WebSocket) (data : example_data)
  : M network unit :=
  send_data_to_subscribers example_dumps (fun _ => order)
    example_subscriptions 3 data.

(** Two records, with whole numbers for the floats and the timestamps. *)
Definition example_stored : ProcessedAgentData Z Z :=
  mkProcessedAgentData "normal"
    (mkAgentData 7 (mkAccelerometerData 1 2 12000) (mkGpsData 50 30) 1000).

Definition example_replacement : ProcessedAgentData Z Z :=
  mkProcessedAgentData "bumpy"
    (mkAgentData 8 (mkAccelerometerData 10 20 9000) (mkGpsData 51 31) 2000).

(** The database before its first row. *)
Definition example_empty : database Z Z := mkDatabase ∅ 1.

(** [create_processed_agent_data] on timestamps that are naive, which the
    column keeps as they are, and with a database that uses one value of
    the sequence for every row of a failed INSERT. *)
Definition example_create
  : list (ProcessedAgentData Z Z)
    -> M (database Z Z) (list (ProcessedAgentDataWithId Z Z)) :=
  create_processed_agent_data (fun t => t) (fun rows _ => length rows).

(** The database that holds [example_stored] under the key 1. *)
Definition example_db : database Z Z :=
  snd (example_create [example_stored] example_empty).

End Store.

(** * Properties *)

(** ** The classifier and the processing step *)

Module EdgeProofs.
Import Edge.

Lemma classify_road_state_cases (a : AccelerometerData) :
  (z a < 10000 /\ classify_road_state a = "bumpy") \/
  (16600 < z a /\ classify_road_state a = "hilly") \/
  (10000 <= z a <= 16600 /\ classify_road_state a = "normal").
Proof.
  unfold classify_road_state; cbv zeta.
  destruct (bool_decide_reflect (z a < 10000)) as [Hlo|Hlo].
  - left; done.
  - destruct (bool_decide_reflect (z a > 16600)) as [Hhi|Hhi].
    + right; left; split; [lia | done].
    + right; right; split; [lia | done].
Qed.

(** C3: the label is "bumpy" below 10000, "hilly" above 16600 and "normal"
    in between, both bounds included; 10000 and 16600 are "normal" and 16601
    is "hilly".  The classifier is a function of its argument alone, total
    on the integers. *)
Theorem classify_road_state_thresholds (vx vy vz : Z) :
  (vz < 10000 ->
     classify_road_state (mkAccelerometerData vx vy vz) = "bumpy") /\
  (vz > 16600 ->
     classify_road_state (mkAccelerometerData vx vy vz) = "hilly") /\
  (10000 <= vz <= 16600 ->
     classify_road_state (mkAccelerometerData vx vy vz) = "normal") /\
  classify_road_state (mkAccelerometerData vx vy 10000) = "normal" /\
  classify_road_state (mkAccelerometerData vx vy 16600) = "normal" /\
  classify_road_state (mkAccelerometerData vx vy 16601) = "hilly".
Proof.
  pose proof (classify_road_state_cases (mkAccelerometerData vx vy vz)) as H.
  simpl in H.
  repeat split; try reflexivity; intros Hz;
    destruct H as [[? ?]|[[? ?]|[? ?]]]; first [assumption | lia].
Qed.

Lemma classify_road_state_thresholds_witness :
  classify_road_state (mkAccelerometerData 5000 0 9000) = "bumpy" /\
  classify_road_state (mkAccelerometerData 1 2 17000) = "hilly" /\
  classify_road_state (mkAccelerometerData 1 2 12000) = "normal".
Proof.
  split; [|split].
  - apply (proj1 (classify_road_state_thresholds 5000 0 9000)). lia.
  - apply (proj1 (proj2 (classify_road_state_thresholds 1 2 17000))). lia.
  - apply (proj1 (proj2 (proj2 (classify_road_state_thresholds 1 2 12000)))).
    lia.
Defined.

(** C9: the processed record carries the label of the reading's
    accelerometer sample and the reading itself, so its gps, timestamp,
    user_id and accelerometer are those of the reading; the record type has
    no identifier to set.  The reading (5000, 0, 9000) of user 42 is
    "bumpy", whatever its position and time. *)
Theorem process_agent_data_copies {Float DateTime : Type}
    (r : AgentData Float DateTime) :
  road_state (process_agent_data r) = classify_road_state (accelerometer r) /\
  agent_data (process_agent_data r) = r /\
  gps (agent_data (process_agent_data r)) = gps r /\
  timestamp (agent_data (process_agent_data r)) = timestamp r /\
  user_id (agent_data (process_agent_data r)) = user_id r /\
  accelerometer (agent_data (process_agent_data r)) = accelerometer r /\
  (forall (lon lat : Float) (t : DateTime),
     process_agent_data
       (mkAgentData 42 (mkAccelerometerData 5000 0 9000) (mkGpsData lon lat) t)
     = mkProcessedAgentData "bumpy"
         (mkAgentData 42 (mkAccelerometerData 5000 0 9000)
            (mkGpsData lon lat) t)).
Proof. repeat split. Qed.

(** C10: two samples with the same z get the same label, whatever their x
    and y. *)
Theorem classify_road_state_only_z (a b : AccelerometerData) :
  z a = z b -> classify_road_state a = classify_road_state b.
Proof. unfold classify_road_state. intros ->. reflexivity. Qed.

Lemma classify_road_state_only_z_witness :
  classify_road_state (mkAccelerometerData 1 2 9000)
  = classify_road_state (mkAccelerometerData (-7) 30000 9000).
Proof.
  apply (classify_road_state_only_z (mkAccelerometerData 1 2 9000)
           (mkAccelerometerData (-7) 30000 9000)).
  reflexivity.
Defined.

End EdgeProofs.

(** ** The file datasource *)

Module AgentProofs.
Import Agent.
Local Open Scope nat_scope.

(** The remainder of a successor. *)
Lemma mod_succ (n k : nat) :
  n ≠ 0 ->
  S k mod n = if decide (S (k mod n) < n) then S (k mod n) else 0.
Proof.
  intros Hn.
  pose proof (Nat.div_mod k n Hn) as Hk.
  pose proof (Nat.mod_upper_bound k n Hn) as Hlt.
  destruct (decide (S (k mod n) < n)) as [Hs|Hs]; symmetry.
  - apply (Nat.mod_unique _ _ (k / n)); [done | lia].
  - apply (Nat.mod_unique _ _ (S (k / n))); [lia | nia].
Qed.

Lemma get_set_file s f ds : get_file s (set_file s f ds) = f.
Proof. by destruct s. Qed.

Lemma set_set_file s f g ds : set_file s f (set_file s g ds) = set_file s f ds.
Proof. by destruct s. Qed.

(** One row is taken from an open file: the row at [next_index], and the
    cursor is left just after it; the other two files are not touched. *)
Lemma read_row_spec s ds f r :
  get_file s ds = Some f -> closed f = false ->
  lines f !! next_index f = Some r ->
  read_row s ds
  = (Ok r, set_file s (Some (mkFile (lines f) (S (next_index f)) false)) ds).
Proof.
  intros Hget Hopen Hrow.
  unfold read_row, bind, reader, try_except, next_of, seek0_of, on_file,
    file_next, file_seek0, next_index in *.
  rewrite Hget, Hopen.
  destruct (decide (cursor f < length (lines f))) as [Hlt|Hge].
  - rewrite Hget, Hopen, Hrow. reflexivity.
  - rewrite Hget, Hopen.
    rewrite (lookup_ge_None_2 (lines f) (cursor f)) by lia.
    rewrite decide_True by reflexivity.
    rewrite get_set_file; simpl. rewrite Hopen.
    rewrite !get_set_file; simpl.
    destruct (lines f) as [|h [|r' rest]] eqn:Hlines; simplify_eq/=.
    rewrite get_set_file; simpl.
    by rewrite !set_set_file.
Qed.

Section WithConversions.
Context {Float DateTime : Type}.
Variable int_of_str : string -> option Z.
Variable float_of_str : string -> option Float.
Variable int_of_float : Float -> outcome Z.
Variable USER_ID : Z.
Variable fs : string -> option (list row).

Lemma _read_accelerometer_data_spec ds f r :
  accelerometer_file ds = Some f -> closed f = false ->
  lines f !! next_index f = Some r ->
  _read_accelerometer_data int_of_str ds
  = (decode_accelerometer int_of_str r,
     set_file AccelerometerS
       (Some (mkFile (lines f) (S (next_index f)) false)) ds).
Proof.
  intros Hget Hopen Hrow.
  unfold _read_accelerometer_data, bind.
  rewrite (read_row_spec AccelerometerS ds f r) by done.
  unfold lift, decode_accelerometer.
  by destruct (unpack3 int_of_str r) as [[[vx vy] vz]|e].
Qed.

Lemma _read_gps_data_spec ds f r :
  gps_file ds = Some f -> closed f = false ->
  lines f !! next_index f = Some r ->
  _read_gps_data float_of_str ds
  = (decode_gps float_of_str r,
     set_file GpsS (Some (mkFile (lines f) (S (next_index f)) false)) ds).
Proof.
  intros Hget Hopen Hrow.
  unfold _read_gps_data, bind.
  rewrite (read_row_spec GpsS ds f r) by done.
  unfold lift, decode_gps.
  by destruct (unpack2 float_of_str r) as [[lon lat]|e].
Qed.

Lemma _read_parking_data_spec ds f r :
  parking_file ds = Some f -> closed f = false ->
  lines f !! next_index f = Some r ->
  _read_parking_data float_of_str int_of_float ds
  = (decode_parking float_of_str int_of_float r,
     set_file ParkingS (Some (mkFile (lines f) (S (next_index f)) false)) ds).
Proof.
  intros Hget Hopen Hrow.
  unfold _read_parking_data, bind.
  rewrite (read_row_spec ParkingS ds f r) by done.
  unfold lift, decode_parking.
  destruct (unpack3 float_of_str r) as [[[cnt lon] lat]|e]; [|done].
  by destruct (int_of_float cnt).
Qed.

(** Unpacking a malformed row raises [ValueError]. *)
Lemma unpack3_malformed {A} (conv : string -> option A) r :
  malformed 3 conv r -> unpack3 conv r = Raise ValueError.
Proof.
  intros [Hlen|(field & Hin & Hconv)].
  - destruct r as [|a [|b [|c [|d r]]]]; simpl in *; try done.
  - destruct r as [|a [|b [|c [|d r]]]]; simpl; try done.
    destruct (conv a) eqn:Ha, (conv b) eqn:Hb, (conv c) eqn:Hc; try done.
    rewrite !elem_of_cons, elem_of_nil in Hin.
    destruct Hin as [->|[->|[->|[]]]]; congruence.
Qed.

Lemma unpack2_malformed {A} (conv : string -> option A) r :
  malformed 2 conv r -> unpack2 conv r = Raise ValueError.
Proof.
  intros [Hlen|(field & Hin & Hconv)].
  - destruct r as [|a [|b [|c r]]]; simpl in *; try done.
  - destruct r as [|a [|b [|c r]]]; simpl; try done.
    destruct (conv a) eqn:Ha, (conv b) eqn:Hb; try done.
    rewrite !elem_of_cons, elem_of_nil in Hin.
    destruct Hin as [->|[->|[]]]; congruence.
Qed.

Lemma next_index_cursor_after h rows k :
  rows ≠ [] ->
  next_index (mkFile (h :: rows) (cursor_after (length rows) k) false)
  = S (k mod length rows).
Proof.
  intros Hne. unfold next_index; simpl.
  assert (length rows ≠ 0) as Hn by (by destruct rows).
  destruct k as [|k]; simpl.
  - rewrite decide_True by lia. by rewrite Nat.Div0.mod_0_l.
  - rewrite (mod_succ _ _ Hn).
    pose proof (Nat.mod_upper_bound k _ Hn).
    repeat case_decide; lia.
Qed.

Section Cycle.
Variables a g p : string.
Variables ha hg hp : row.
Variables ra rg rp : list row.
Hypothesis accelerometer_rows : ra ≠ [].
Hypothesis gps_rows : rg ≠ [].
Hypothesis parking_rows : rp ≠ [].
Hypothesis accelerometer_ok :
  Forall (fun r => is_ok (decode_accelerometer int_of_str r)) ra.
Hypothesis gps_ok :
  Forall (fun r => is_ok (decode_gps float_of_str r)) rg.
Hypothesis parking_ok :
  Forall (fun r => is_ok (decode_parking float_of_str int_of_float r)) rp.

Let state := opened_after a g p (ha :: ra) (hg :: rg) (hp :: rp).
Let read' := read int_of_str float_of_str int_of_float USER_ID (DateTime:=DateTime).

Lemma startReading_opened :
  fs a = Some (ha :: ra) -> fs g = Some (hg :: rg) ->
  fs p = Some (hp :: rp) ->
  startReading fs (init a g p) = (Ok tt, state 0).
Proof.
  intros Ha Hg Hp.
  unfold startReading, bind, open_of, next_of, on_file, file_next, init;
    simpl.
  rewrite Ha; simpl. rewrite Hg; simpl. rewrite Hp; simpl. reflexivity.
Qed.

Lemma read_opened_after k now r_a r_g r_p va vg vp :
  ra !! (k mod length ra) = Some r_a ->
  rg !! (k mod length rg) = Some r_g ->
  rp !! (k mod length rp) = Some r_p ->
  decode_accelerometer int_of_str r_a = Ok va ->
  decode_gps float_of_str r_g = Ok vg ->
  decode_parking float_of_str int_of_float r_p = Ok vp ->
  read' now (state k) = (Ok (mkAggregatedData va vg vp now USER_ID), state (S k)).
Proof.
  intros Hra Hrg Hrp Hva Hvg Hvp.
  unfold read', read, bind, state, opened_after; simpl.
  rewrite !Nat.sub_0_r.
  erewrite _read_accelerometer_data_spec;
    [| reflexivity | reflexivity
     | rewrite next_index_cursor_after by done; exact Hra ].
  rewrite Hva.
  erewrite _read_gps_data_spec;
    [| reflexivity | reflexivity
     | rewrite next_index_cursor_after by done; exact Hrg ].
  rewrite Hvg.
  erewrite _read_parking_data_spec;
    [| reflexivity | reflexivity
     | rewrite next_index_cursor_after by done; exact Hrp ].
  rewrite Hvp.
  rewrite !next_index_cursor_after by done.
  reflexivity.
Qed.

(** Every read of the opened object returns. *)
Lemma read_opened_after_ok k now :
  exists va vg vp,
    (exists r, ra !! (k mod length ra) = Some r /\
               decode_accelerometer int_of_str r = Ok va) /\
    (exists r, rg !! (k mod length rg) = Some r /\
               decode_gps float_of_str r = Ok vg) /\
    (exists r, rp !! (k mod length rp) = Some r /\
               decode_parking float_of_str int_of_float r = Ok vp) /\
    read' now (state k)
    = (Ok (mkAggregatedData va vg vp now USER_ID), state (S k)).
Proof.
  assert (forall (rows : list row), rows ≠ [] ->
            exists r, rows !! (k mod length rows) = Some r) as Hrow.
  { intros rows Hne. apply lookup_lt_is_Some_2, Nat.mod_upper_bound.
    by destruct rows. }
  destruct (Hrow ra accelerometer_rows) as [r_a Hra].
  destruct (Hrow rg gps_rows) as [r_g Hrg].
  destruct (Hrow rp parking_rows) as [r_p Hrp].
  destruct (proj1 (Forall_lookup _ _) accelerometer_ok _ _ Hra) as [va Hva].
  destruct (proj1 (Forall_lookup _ _) gps_ok _ _ Hrg) as [vg Hvg].
  destruct (proj1 (Forall_lookup _ _) parking_ok _ _ Hrp) as [vp Hvp].
  exists va, vg, vp. repeat split; eauto using read_opened_after.
Qed.

Lemma after_reads_opened (nows : list DateTime) k :
  after_reads int_of_str float_of_str int_of_float USER_ID nows (state k)
  = state (k + length nows).
Proof.
  revert k. induction nows as [|now nows IH]; intros k; simpl.
  - by rewrite Nat.add_0_r.
  - destruct (read_opened_after_ok k now) as (va & vg & vp & _ & _ & _ & Hread).
    fold read'. rewrite Hread; simpl. rewrite IH. f_equal. lia.
Qed.
End Cycle.

(** C4: a stream takes the line at its cursor and moves one line on as
    long as the file has a line there; only when the cursor is at the end
    of the file does it go back to the start, skip the header once, and
    take the first data row, which leaves the cursor two lines in.  So
    after [startReading] has found the three files, each with a header and
    data rows that convert, the read that follows [k] reads returns for
    each stream the sample of its row of index [k] modulo the number of its
    rows and leaves each file just after that row: the rows come in file
    order, the read that follows as many reads as a stream has rows returns
    for that stream what the first read returned, the first data row, and
    the three streams wrap each at its own length. *)
Theorem read_wraps_around
    (a g p : string) (ha hg hp : row) (ra rg rp : list row)
    (nows : list DateTime) (now1 nowN : DateTime) :
  fs a = Some (ha :: ra) ->
  fs g = Some (hg :: rg) ->
  fs p = Some (hp :: rp) ->
  ra ≠ [] -> rg ≠ [] -> rp ≠ [] ->
  Forall (fun r => is_ok (decode_accelerometer int_of_str r)) ra ->
  Forall (fun r => is_ok (decode_gps float_of_str r)) rg ->
  Forall (fun r => is_ok (decode_parking float_of_str int_of_float r)) rp ->
  let read := read int_of_str float_of_str int_of_float USER_ID in
  let opened := snd (startReading fs (init a g p)) in
  let before_last :=
    after_reads int_of_str float_of_str int_of_float USER_ID nows opened in
  (forall (s : stream) (ds : FileDatasource) (f : file) (r : row),
     get_file s ds = Some f -> closed f = false ->
     (cursor f < length (lines f) -> lines f !! cursor f = Some r ->
        read_row s ds
        = (Ok r, set_file s (Some (mkFile (lines f) (S (cursor f)) false)) ds))
     /\
     (length (lines f) <= cursor f -> lines f !! 1 = Some r ->
        read_row s ds
        = (Ok r, set_file s (Some (mkFile (lines f) 2 false)) ds))) /\
  opened
  = mkFileDatasource a g p
      (Some (mkFile (ha :: ra) 1 false))
      (Some (mkFile (hg :: rg) 1 false))
      (Some (mkFile (hp :: rp) 1 false)) /\
  (forall (earlier : list DateTime) (now : DateTime),
     let k := length earlier in
     exists r_a r_g r_p va vg vp,
       ra !! (k mod length ra) = Some r_a /\
       rg !! (k mod length rg) = Some r_g /\
       rp !! (k mod length rp) = Some r_p /\
       decode_accelerometer int_of_str r_a = Ok va /\
       decode_gps float_of_str r_g = Ok vg /\
       decode_parking float_of_str int_of_float r_p = Ok vp /\
       read now
         (after_reads int_of_str float_of_str int_of_float USER_ID earlier
            opened)
       = (Ok (mkAggregatedData va vg vp now USER_ID),
          mkFileDatasource a g p
            (Some (mkFile (ha :: ra) (k mod length ra + 2) false))
            (Some (mkFile (hg :: rg) (k mod length rg + 2) false))
            (Some (mkFile (hp :: rp) (k mod length rp + 2) false)))) /\
  exists first last : AggregatedData Float DateTime,
    fst (read now1 opened) = Ok first /\
    fst (read nowN before_last) = Ok last /\
    (length nows = length ra ->
       accelerometer last = accelerometer first /\
       Some (Ok (accelerometer first))
       = decode_accelerometer int_of_str <$> head ra /\
       accelerometer_file (snd (read nowN before_last))
       = Some (mkFile (ha :: ra) 2 false)) /\
    (length nows = length rg ->
       gps last = gps first /\
       Some (Ok (gps first)) = decode_gps float_of_str <$> head rg /\
       gps_file (snd (read nowN before_last))
       = Some (mkFile (hg :: rg) 2 false)) /\
    (length nows = length rp ->
       parking last = parking first /\
       Some (Ok (parking first))
       = decode_parking float_of_str int_of_float <$> head rp /\
       parking_file (snd (read nowN before_last))
       = Some (mkFile (hp :: rp) 2 false)).
Proof.
  intros Ha Hg Hp Hra Hrg Hrp Hoka Hokg Hokp; cbv zeta.
  split.
  { intros s ds f r Hget Hopen. split; intros Hcur Hrow.
    - rewrite (read_row_spec s ds f r Hget Hopen);
        unfold next_index; rewrite decide_True by done; done.
    - rewrite (read_row_spec s ds f r Hget Hopen);
        unfold next_index; rewrite decide_False by lia; done. }
  rewrite (startReading_opened a g p ha hg hp ra rg rp Ha Hg Hp); simpl.
  split; [by rewrite ?Nat.sub_0_r|].
  split.
  { intros earlier now.
    rewrite (after_reads_opened a g p ha hg hp ra rg rp) by done; simpl.
    destruct (read_opened_after_ok a g p ha hg hp ra rg rp
                Hra Hrg Hrp Hoka Hokg Hokp (length earlier) now)
      as (va & vg & vp & (r_a & Hr_a & Hva) & (r_g & Hr_g & Hvg)
          & (r_p & Hr_p & Hvp) & Hread).
    exists r_a, r_g, r_p, va, vg, vp.
    rewrite Hread. unfold opened_after; simpl.
    rewrite !Nat.sub_0_r, !(Nat.add_comm _ 2). done. }
  rewrite (after_reads_opened a g p ha hg hp ra rg rp) by done; simpl.
  destruct (read_opened_after_ok a g p ha hg hp ra rg rp
              Hra Hrg Hrp Hoka Hokg Hokp 0 now1)
    as (va & vg & vp & (r_a & Hr_a & Hva) & (r_g & Hr_g & Hvg)
        & (r_p & Hr_p & Hvp) & Hfirst).
  destruct (read_opened_after_ok a g p ha hg hp ra rg rp
              Hra Hrg Hrp Hoka Hokg Hokp (length nows) nowN)
    as (wa & wg & wp & (s_a & Hs_a & Hwa) & (s_g & Hs_g & Hwg)
        & (s_p & Hs_p & Hwp) & Hlast).
  rewrite Nat.Div0.mod_0_l in Hr_a, Hr_g, Hr_p.
  exists (mkAggregatedData va vg vp now1 USER_ID),
         (mkAggregatedData wa wg wp nowN USER_ID).
  rewrite Hfirst, Hlast; simpl.
  split; [done|]. split; [done|].
  rewrite !Nat.sub_0_r.
  split; [|split]; intros Hlen; rewrite Hlen, Nat.Div0.mod_same in *;
    (split; [congruence|]); (split; [|done]).
  - destruct ra; simplify_eq/=. by rewrite Hva.
  - destruct rg; simplify_eq/=. by rewrite Hvg.
  - destruct rp; simplify_eq/=. by rewrite Hvp.
Qed.




(** C7, as amended: when the row that a stream is about to take is
    malformed, the [_read_*_data] method and the [read] that calls it raise
    [ValueError] with the row consumed: the cursor of that file is just
    after the bad row and the files of the other streams are as the method
    found them. *)
Theorem malformed_record_is_consumed
    (now : DateTime) (ds : FileDatasource) (f : file) (r : row) :
  closed f = false ->
  lines f !! next_index f = Some r ->
  let read := read int_of_str float_of_str int_of_float USER_ID in
  let f' := mkFile (lines f) (S (next_index f)) false in
  (accelerometer_file ds = Some f -> malformed 3 int_of_str r ->
     _read_accelerometer_data int_of_str ds
     = (Raise ValueError, set_file AccelerometerS (Some f') ds) /\
     read now ds = (Raise ValueError, set_file AccelerometerS (Some f') ds))
  /\
  (gps_file ds = Some f -> malformed 2 float_of_str r ->
     _read_gps_data float_of_str ds
     = (Raise ValueError, set_file GpsS (Some f') ds) /\
     forall ds0 va,
       _read_accelerometer_data int_of_str ds0 = (Ok va, ds) ->
       read now ds0 = (Raise ValueError, set_file GpsS (Some f') ds))
  /\
  (parking_file ds = Some f -> malformed 3 float_of_str r ->
     _read_parking_data float_of_str int_of_float ds
     = (Raise ValueError, set_file ParkingS (Some f') ds) /\
     forall ds0 ds1 va vg,
       _read_accelerometer_data int_of_str ds0 = (Ok va, ds1) ->
       _read_gps_data float_of_str ds1 = (Ok vg, ds) ->
       read now ds0 = (Raise ValueError, set_file ParkingS (Some f') ds)).
Proof.
  intros Hopen Hrow; cbv zeta.
  split; [|split]; intros Hfile Hbad.
  - assert (_read_accelerometer_data int_of_str ds
            = (Raise ValueError,
               set_file AccelerometerS
                 (Some (mkFile (lines f) (S (next_index f)) false)) ds))
      as Hacc.
    { rewrite (_read_accelerometer_data_spec ds f r) by done.
      unfold decode_accelerometer. by rewrite unpack3_malformed. }
    split; [done|]. unfold read, bind. by rewrite Hacc.
  - assert (_read_gps_data float_of_str ds
            = (Raise ValueError,
               set_file GpsS
                 (Some (mkFile (lines f) (S (next_index f)) false)) ds))
      as Hgps.
    { rewrite (_read_gps_data_spec ds f r) by done.
      unfold decode_gps. by rewrite unpack2_malformed. }
    split; [done|]. intros ds0 va Hacc.
    unfold read, bind. by rewrite Hacc, Hgps.
  - assert (_read_parking_data float_of_str int_of_float ds
            = (Raise ValueError,
               set_file ParkingS
                 (Some (mkFile (lines f) (S (next_index f)) false)) ds))
      as Hpark.
    { rewrite (_read_parking_data_spec ds f r) by done.
      unfold decode_parking. by rewrite unpack3_malformed. }
    split; [done|]. intros ds0 ds1 va vg Hacc Hgps.
    unfold read, bind. by rewrite Hacc, Hgps, Hpark.
Qed.

End WithConversions.

Lemma read_wraps_around_witness :
  let opened := snd (example_start example_source) in
  exists first last,
    fst (example_read 10 opened) = Ok first /\
    fst (example_read 13
           (after_reads decimal decimal Ok 42 [11; 12]%Z opened)) = Ok last /\
    accelerometer last = accelerometer first.
Proof.
  destruct (read_wraps_around decimal decimal Ok 42 example_fs
              "accelerometer.csv" "gps.csv" "parking.csv"
              ["x"; "y"; "z"] ["longitude"; "latitude"]
              ["empty_count"; "longitude"; "latitude"]
              [ ["5000"; "0"; "9000"]; ["12"; "7"; "16700"] ]
              [ ["30"; "50"]; ["31"; "51"]; ["32"; "52"] ]
              [ ["3"; "30"; "50"] ]
              [11; 12]%Z 10%Z 13%Z)
    as (_ & _ & _ & first & last & Hfirst & Hlast & Hacc & _ & _);
    try reflexivity; try discriminate;
    try (repeat constructor; eexists; reflexivity).
  exists first, last. split; [exact Hfirst|]. split; [exact Hlast|].
  apply Hacc. reflexivity.
Defined.




Lemma malformed_record_is_consumed_witness :
  let ds := snd (example_start example_bad_source) in
  example_read 0 ds
  = (Raise ValueError,
     set_file AccelerometerS
       (Some (mkFile [ ["x"; "y"; "z"]; ["5000"; "oops"; "9000"];
                       ["12"; "7"; "16700"] ] 2 false)) ds).
Proof.
  cbv zeta.
  refine (proj2 (proj1 (malformed_record_is_consumed (Float:=Z)
            decimal decimal Ok 42 0%Z
            (snd (example_start example_bad_source))
            (mkFile [ ["x"; "y"; "z"]; ["5000"; "oops"; "9000"];
                      ["12"; "7"; "16700"] ] 1 false)
            ["5000"; "oops"; "9000"] _ _) _ _)).
  - reflexivity.
  - reflexivity.
  - reflexivity.
  - right. exists "oops". split; [|reflexivity].
    apply elem_of_cons; right. apply elem_of_cons; left. reflexivity.
Defined.

(** C7 as stated fails: the first data row of the accelerometer file is
    malformed and the read that meets it raises, but the row that the file
    then has next is no longer that row, and the next read returns the
    sample of the row after it. *)
Lemma malformed_record_counterexample :
  let bad := ["5000"; "oops"; "9000"] in
  let ds := snd (example_start example_bad_source) in
  let ds' := snd (example_read 0 ds) in
  (exists f, accelerometer_file ds = Some f /\
             lines f !! next_index f = Some bad) /\
  fst (example_read 0 ds) = Raise ValueError /\
  ¬ (exists f', accelerometer_file ds' = Some f' /\
                lines f' !! next_index f' = Some bad) /\
  fst (example_read 1 ds')
  = Ok (mkAggregatedData (mkAccelerometer 12 7 16700) (mkGps 30 50)%Z
          (mkParking 3 (mkGps 30 50))%Z 1%Z 42%Z).
Proof.
  cbv zeta. split; [|split; [|split]].
  - eexists; split; reflexivity.
  - reflexivity.
  - intros (f' & Hf' & Hbad). vm_compute in Hf'.
    injection Hf' as <-. vm_compute in Hbad. discriminate Hbad.
  - reflexivity.
Qed.

End AgentProofs.
(** ** The store *)

Module StoreProofs.
Import Store.

Section Registry.
Context {Data : Type}.
Variable json_dumps : Data -> outcome string.
Variable iteration_order : gset WebSocket -> list WebSocket.
Hypothesis iteration_order_elements :
  forall s, iteration_order s ≡ₚ elements s.

Lemma for_each_send_json_ok (data : Data) (msg : string)
    (l : list WebSocket) (n : network) :
  json_dumps data = Ok msg ->
  Forall (fun w => failing n !! w = None) l ->
  for_each l
    (fun websocket n =>
       match json_dumps data with
       | Ok msg => send_json websocket msg n
       | Raise e => (Raise e, n)
       end) n
  = (Ok tt, mkNetwork (failing n) (sent n ++ map (fun w => (w, msg)) l)%list).
Proof.
  intros ->. revert n. induction l as [|w l IH]; intros n Hok; simpl.
  - unfold ret. rewrite app_nil_r. by destruct n.
  - apply Forall_cons in Hok as [Hw Hl].
    unfold bind at 1, send_json at 1. rewrite Hw.
    rewrite IH by done. simpl. by rewrite <- app_assoc.
Qed.

Lemma for_each_send_json_raise (data : Data) (msg : string)
    (before after : list WebSocket) (w : WebSocket) (e : exn) (n : network) :
  json_dumps data = Ok msg ->
  Forall (fun v => failing n !! v = None) before ->
  failing n !! w = Some e ->
  for_each (before ++ w :: after)%list
    (fun websocket n =>
       match json_dumps data with
       | Ok msg => send_json websocket msg n
       | Raise e => (Raise e, n)
       end) n
  = (Raise e,
     mkNetwork (failing n) (sent n ++ map (fun v => (v, msg)) before)%list).
Proof.
  intros ->. revert n.
  induction before as [|v before IH]; intros n Hok Hw; simpl.
  - unfold bind, send_json. rewrite Hw, app_nil_r. by destruct n.
  - apply Forall_cons in Hok as [Hv Hl].
    unfold bind at 1, send_json at 1. rewrite Hv.
    rewrite IH by done. simpl. by rewrite <- app_assoc.
Qed.

(** C2, as amended: the record goes to the sockets of the user one after
    the other, in the iteration order of the set, and is dumped anew for
    each of them.  With no set or an empty set for the user the call
    returns at once.  If the record has a JSON form and no send fails,
    every socket of the user gets the message, once, and the call returns.
    The first send that fails ends the loop: its exception reaches the
    caller and the sockets after it in the iteration order get nothing.  A
    record without a JSON form ends the loop at the first socket: the
    exception of [json.dumps] reaches the caller and no socket gets
    anything. *)
Theorem send_data_to_subscribers_until_failure
    (subscriptions : gmap Z (gset WebSocket)) (user_id : Z) (data : Data)
    (n : network) :
  let publish :=
    send_data_to_subscribers json_dumps iteration_order subscriptions
      user_id data in
  let delivered (msg : string) (l : list WebSocket) :=
    mkNetwork (failing n) (sent n ++ map (fun w => (w, msg)) l)%list in
  (subscriptions !! user_id = None -> publish n = (Ok tt, n)) /\
  (subscriptions !! user_id = Some ∅ -> publish n = (Ok tt, n)) /\
  (forall s msg, subscriptions !! user_id = Some s ->
     json_dumps data = Ok msg ->
     (forall w, w ∈ s -> failing n !! w = None) ->
     publish n = (Ok tt, delivered msg (iteration_order s)) /\
     (forall w, w ∈ s <-> w ∈ iteration_order s) /\
     NoDup (iteration_order s)) /\
  (forall s msg (before after : list WebSocket) w e,
     subscriptions !! user_id = Some s ->
     json_dumps data = Ok msg ->
     iteration_order s = (before ++ w :: after)%list ->
     (forall v, v ∈ before -> failing n !! v = None) ->
     failing n !! w = Some e ->
     publish n = (Raise e, delivered msg before)) /\
  (forall s e, subscriptions !! user_id = Some s -> s ≠ ∅ ->
     json_dumps data = Raise e ->
     publish n = (Raise e, n)).
Proof.
  cbv zeta. unfold send_data_to_subscribers.
  assert (forall s w, w ∈ s <-> w ∈ iteration_order s) as Hin.
  { intros s w. rewrite (iteration_order_elements s).
    by rewrite elem_of_elements. }
  split; [|split; [|split; [|split]]].
  - by intros ->.
  - intros ->.
    destruct (iteration_order ∅) as [|w l] eqn:Hnil; [done|].
    exfalso. apply (not_elem_of_empty (C:=gset WebSocket) w).
    apply Hin. rewrite Hnil. apply elem_of_cons. by left.
  - intros s msg -> Hmsg Hok.
    split; [|split; [done|]].
    + apply for_each_send_json_ok; [done|]. apply Forall_forall.
      intros w Hw. by apply Hok, Hin.
    + rewrite (iteration_order_elements s). apply NoDup_elements.
  - intros s msg before after w e -> Hmsg -> Hok Hw.
    apply for_each_send_json_raise; [done| |done]. by apply Forall_forall.
  - intros s e -> Hne Hraise.
    destruct (iteration_order s) as [|w l] eqn:Hl.
    + exfalso. apply Hne. apply set_eq. intros w.
      rewrite Hin, Hl, elem_of_nil. split; [done|].
      intros Hw. by apply not_elem_of_empty in Hw.
    + simpl. unfold bind. by rewrite Hraise.
Qed.

End Registry.

Lemma send_data_to_subscribers_until_failure_witness :
  send_data_to_subscribers example_dumps elements
    example_subscriptions 3 DataNone (mkNetwork ∅ [])
  = (Ok tt, mkNetwork ∅ [(2%positive, "null"); (1%positive, "null")]) /\
  send_data_to_subscribers example_dumps elements
    example_subscriptions 3 DataNone
    (mkNetwork {[2%positive := WebSocketDisconnect]} [])
  = (Raise WebSocketDisconnect,
     mkNetwork {[2%positive := WebSocketDisconnect]} []) /\
  send_data_to_subscribers example_dumps elements
    example_subscriptions 3 (DataRecord example_stored) (mkNetwork ∅ [])
  = (Raise TypeError, mkNetwork ∅ []).
Proof.
  split; [|split].
  - destruct (send_data_to_subscribers_until_failure example_dumps
                elements (fun s => reflexivity _)
                example_subscriptions 3 DataNone (mkNetwork ∅ []))
      as (_ & _ & Hok & _).
    destruct (Hok ({[1%positive]} ∪ {[2%positive]}) "null" eq_refl eq_refl)
      as [Hpub _].
    + intros w _. apply lookup_empty.
    + exact Hpub.
  - destruct (send_data_to_subscribers_until_failure example_dumps
                elements (fun s => reflexivity _)
                example_subscriptions 3 DataNone
                (mkNetwork {[2%positive := WebSocketDisconnect]} []))
      as (_ & _ & _ & Hraise & _).
    apply (Hraise ({[1%positive]} ∪ {[2%positive]}) "null" [] [1%positive]
             2%positive WebSocketDisconnect).
    + reflexivity.
    + reflexivity.
    + vm_compute. reflexivity.
    + intros v Hv. by apply elem_of_nil in Hv.
    + reflexivity.
  - destruct (send_data_to_subscribers_until_failure example_dumps
                elements (fun s => reflexivity _)
                example_subscriptions 3 (DataRecord example_stored)
                (mkNetwork ∅ []))
      as (_ & _ & _ & _ & Hdump).
    apply (Hdump ({[1%positive]} ∪ {[2%positive]}) TypeError).
    + reflexivity.
    + intros Hempty.
      apply (not_elem_of_empty (C:=gset WebSocket) 1%positive).
      rewrite <- Hempty. apply elem_of_union_l, elem_of_singleton.
      reflexivity.
    + reflexivity.
Defined.

(** C2 as stated fails: with the peer of socket 1 gone, publishing data
    that has a JSON form to user 3 raises in both iteration orders of its
    two sockets, and in the order that has socket 1 first socket 2 gets
    nothing; and publishing a record, which has no JSON form, raises and
    reaches no socket even when every peer is there. *)
Lemma send_data_to_subscribers_counterexample :
  (forall order, order ∈ [ [1%positive; 2%positive]; [2%positive; 1%positive] ] ->
     order ≡ₚ elements (example_subscriptions !!! 3) /\
     fst (example_publish order DataNone example_network)
     = Raise WebSocketDisconnect /\
     example_publish order (DataRecord example_stored) (mkNetwork ∅ [])
     = (Raise TypeError, mkNetwork ∅ [])) /\
  sent (snd (example_publish [1%positive; 2%positive] DataNone
               example_network)) = [].
Proof.
  split; [|reflexivity].
  intros order Horder. rewrite !elem_of_cons, elem_of_nil in Horder.
  destruct Horder as [->|[->|[]]];
    (split; [|split; reflexivity]).
  - vm_compute. apply perm_swap.
  - vm_compute. reflexivity.
Qed.

(** ** The registry under several connections *)

Lemma subscribe_insert user_id websocket
    (subscriptions : gmap Z (gset WebSocket)) :
  subscribe user_id websocket subscriptions
  = <[user_id := (subscriptions !!! user_id) ∪ {[websocket]}]> subscriptions.
Proof.
  unfold subscribe. destruct (decide (user_id ∈ dom subscriptions)) as [|Hnew];
    [done|].
  apply not_elem_of_dom in Hnew.
  rewrite lookup_total_insert_eq, insert_insert_eq.
  by rewrite lookup_total_alt, Hnew.
Qed.





Section Crud.
Context {Float DateTime : Type}.
Variable without_time_zone : DateTime -> DateTime.
Variable failed_insert_uses :
  list (columns Float DateTime) -> database Float DateTime -> nat.
Implicit Types (db : database Float DateTime) (c : columns Float DateTime).
Implicit Types (data : ProcessedAgentData Float DateTime).
Implicit Types (o : ProcessedAgentDataInDB Float DateTime).

Lemma read_processed_agent_data_found k db c :
  table db !! k = Some c ->
  read_processed_agent_data k db = (Ok (response_of k c), db).
Proof.
  intros Hk. unfold read_processed_agent_data, query_first. by rewrite Hk.
Qed.

Lemma update_processed_agent_data_found k data db c :
  table db !! k = Some c ->
  update_processed_agent_data k data db
  = (Ok (response_of k (with_road_state (road_state data) c)),
     mkDatabase (<[k := with_road_state (road_state data) c]> (table db))
       (next_id db)).
Proof.
  intros Hk. unfold update_processed_agent_data, query_first. rewrite Hk.
  simpl. unfold load; simpl. by rewrite lookup_insert_eq.
Qed.

(** What [updateById] followed by [getById] returns: the new road state
    with the agent data that the row had before. *)
Lemma update_then_read k data db c :
  table db !! k = Some c ->
  let db' := snd (update_processed_agent_data k data db) in
  fst (update_processed_agent_data k data db)
  = Ok (response_of k (with_road_state (road_state data) c)) /\
  fst (read_processed_agent_data k db')
  = Ok (response_of k (with_road_state (road_state data) c)).
Proof.
  intros Hk; cbv zeta. rewrite (update_processed_agent_data_found _ _ _ c Hk).
  split; [done|]. simpl.
  erewrite read_processed_agent_data_found; [done|].
  simpl. apply lookup_insert_eq.
Qed.

(** An INSERT that succeeds. *)
Lemma flush_insert_ok o db o' db' :
  flush_insert _ _ without_time_zone o db = Ok (o', db') ->
  int4 (col_user_id (db_columns o)) /\
  int4 (next_id db) /\
  table db !! next_id db = None /\
  db' = mkDatabase
          (<[next_id db := stored without_time_zone (db_columns o)]> (table db))
          (next_id db + 1).
Proof.
  unfold flush_insert, insert_values.
  destruct (bool_decide (int4 (col_user_id (db_columns o)))) eqn:Hu; [|done].
  destruct (bool_decide (int4 (next_id db))) eqn:Hk; [|done].
  destruct (table db !! next_id db) eqn:Hfree; [done|].
  intros [= <- <-].
  apply bool_decide_eq_true in Hu. apply bool_decide_eq_true in Hk. done.
Qed.

(** When the sequence is ahead of the keys, an INSERT fails only on a
    value that is out of range. *)
Lemma flush_insert_raise o db e :
  sequence_ahead db ->
  flush_insert _ _ without_time_zone o db = Raise e -> e = DataError.
Proof.
  intros Hseq. unfold flush_insert, insert_values.
  destruct (bool_decide (int4 (col_user_id (db_columns o)))); [|congruence].
  destruct (bool_decide (int4 (next_id db))); [|congruence].
  destruct (table db !! next_id db) eqn:Hfree; [|done].
  assert (next_id db < next_id db) by (apply Hseq; eauto). lia.
Qed.

Lemma flush_insert_succeeds o db :
  sequence_ahead db ->
  int4 (col_user_id (db_columns o)) ->
  int4 (next_id db) ->
  is_ok (flush_insert _ _ without_time_zone o db).
Proof.
  intros Hseq Hu Hk. unfold flush_insert, insert_values.
  rewrite !bool_decide_eq_true_2 by done.
  destruct (table db !! next_id db) eqn:Hfree; [|by eexists].
  assert (next_id db < next_id db) by (apply Hseq; eauto). lia.
Qed.

Lemma sequence_ahead_insert db c :
  sequence_ahead db ->
  sequence_ahead (mkDatabase (<[next_id db := c]> (table db)) (next_id db + 1)).
Proof.
  intros Hseq k [c' Hk]; simpl in *.
  destruct (decide (k = next_id db)) as [->|Hne]; [lia|].
  rewrite lookup_insert_ne in Hk by done.
  assert (k < next_id db) by (apply Hseq; eauto). lia.
Qed.

(** The INSERTs of a flush that succeeds: every value was in range, the
    keys are the next values of the sequence, in the order of the
    instances, and no other key is touched. *)
Lemma flush_inserts_ok os db os' db' :
  flush_inserts without_time_zone os db = Ok (os', db') ->
  length os' = length os /\
  Forall (fun o => int4 (col_user_id (db_columns o))) os /\
  (os ≠ [] -> sequence_left (length os) db) /\
  next_id db' = next_id db + Z.of_nat (length os) /\
  (forall (i : nat) o, os !! i = Some o ->
     table db !! (next_id db + Z.of_nat i) = None /\
     table db' !! (next_id db + Z.of_nat i)
     = Some (stored without_time_zone (db_columns o))) /\
  (forall k, k < next_id db -> table db' !! k = table db !! k) /\
  (forall k, next_id db' <= k -> table db' !! k = table db !! k).
Proof.
  revert db os' db'. induction os as [|o os IH]; intros db os' db'; simpl.
  - intros [= <- <-]. split; [done|]. split; [done|]. split; [done|].
    split; [lia|]. done.
  - destruct (flush_insert _ _ _ o db) as [[o1 db1]|e] eqn:Ho; [|done].
    destruct (flush_inserts _ os db1) as [[os1 db2]|e] eqn:Hos; [|done].
    intros [= <- <-].
    apply flush_insert_ok in Ho as (Hu & Hk & Hfree & ->).
    apply IH in Hos as (Hlen & Hfit & Hleft & Hnext & Hnew & Hold & Hbeyond).
    simpl in *.
    split; [by rewrite Hlen|]. split; [by constructor|].
    split.
    { intros _. unfold sequence_left, int4 in *.
      destruct os as [|o2 os]; simpl in *; [lia|].
      specialize (Hleft ltac:(done)). lia. }
    split; [lia|]. split.
    + intros [|i] o' Hi; simplify_eq/=.
      * rewrite Z.add_0_r. split; [done|].
        rewrite Hold by lia. apply lookup_insert_eq.
      * replace (next_id db + Z.of_nat (S i))
          with (next_id db + 1 + Z.of_nat i) by lia.
        destruct (Hnew i o' Hi) as [Hnone Hsome]. split; [|done].
        rewrite lookup_insert_ne in Hnone by lia. done.
    + split.
      * intros k Hk'. rewrite Hold by lia. apply lookup_insert_ne. lia.
      * intros k Hk'. rewrite Hbeyond by lia. apply lookup_insert_ne. lia.
Qed.

(** When the sequence is ahead of the keys, a flush fails only on a value
    that is out of range. *)
Lemma flush_inserts_raise os db e :
  sequence_ahead db ->
  flush_inserts without_time_zone os db = Raise e -> e = DataError.
Proof.
  revert db. induction os as [|o os IH]; intros db Hseq; simpl; [done|].
  destruct (flush_insert _ _ _ o db) as [[o1 db1]|e1] eqn:Ho.
  - apply flush_insert_ok in Ho as (_ & _ & _ & ->).
    destruct (flush_inserts _ os _) as [[os1 db2]|e2] eqn:Hos; [done|].
    intros [= <-]. eapply IH; [|exact Hos]. by apply sequence_ahead_insert.
  - intros [= <-]. by eapply flush_insert_raise.
Qed.

Lemma flush_inserts_succeeds os db :
  sequence_ahead db ->
  Forall (fun o => int4 (col_user_id (db_columns o))) os ->
  sequence_left (length os) db ->
  is_ok (flush_inserts without_time_zone os db).
Proof.
  revert db. induction os as [|o os IH]; intros db Hseq Hfit Hleft; simpl.
  - by eexists.
  - apply Forall_cons in Hfit as [Hu Hfit].
    assert (int4 (next_id db)) as Hk.
    { unfold sequence_left, int4 in *. simpl in Hleft. lia. }
    destruct (flush_insert_succeeds o db Hseq Hu Hk) as [[o1 db1] Ho].
    rewrite Ho.
    apply flush_insert_ok in Ho as (_ & _ & _ & ->).
    destruct (IH (mkDatabase
                    (<[next_id db := stored without_time_zone (db_columns o)]>
                       (table db)) (next_id db + 1))) as [[os1 db2] Hos].
    + by apply sequence_ahead_insert.
    + done.
    + unfold sequence_left in *. simpl in *. lia.
    + rewrite Hos. by eexists.
Qed.

(** The response to a batch that is not empty, once its session is
    closed. *)
Lemma db_models_to_response_models_detached db
    (os : list (ProcessedAgentDataInDB Float DateTime)) :
  os ≠ [] ->
  db_models_to_response_models _ _ db (map (detach _ _) (map (expire _ _) os))
  = Raise DetachedInstanceError.
Proof. by destruct os. Qed.

Lemma fits_new_in_db (batch : list (ProcessedAgentData Float DateTime)) :
  Forall fits batch <->
  Forall (fun o => int4 (col_user_id (db_columns o)))
    (map attach (map new_in_db batch)).
Proof. rewrite !Forall_fmap. apply Forall_proper; [|done]. by intros []. Qed.

(** What a batch that the database accepts leaves behind. *)
Lemma create_processed_agent_data_accepted
    (batch : list (ProcessedAgentData Float DateTime)) db :
  sequence_ahead db ->
  Forall fits batch ->
  sequence_left (length batch) db ->
  exists os' db',
    flush_inserts without_time_zone (map attach (map new_in_db batch)) db
    = Ok (os', db') /\
    length os' = length batch /\
    create_processed_agent_data without_time_zone failed_insert_uses batch db
    = (db_models_to_response_models _ _ db' (map (detach _ _) (map (expire _ _) os')),
       db') /\
    next_id db' = next_id db + Z.of_nat (length batch) /\
    (forall (i : nat) item, batch !! i = Some item ->
       table db !! (next_id db + Z.of_nat i) = None /\
       table db' !! (next_id db + Z.of_nat i)
       = Some (stored without_time_zone (columns_of item))) /\
    (forall k, is_Some (table db !! k) -> table db' !! k = table db !! k) /\
    sequence_ahead db'.
Proof.
  intros Hseq Hfit Hleft.
  destruct (flush_inserts_succeeds (map attach (map new_in_db batch)) db)
    as [[os' db'] Hos]; [done|by apply fits_new_in_db|by rewrite !length_map|].
  exists os', db'. split; [done|].
  pose proof (flush_inserts_ok _ _ _ _ Hos)
    as (Hlen & _ & _ & Hnext & Hnew & Hold & Hbeyond).
  rewrite !length_map in Hlen, Hnext.
  split; [done|]. split.
  { unfold create_processed_agent_data. by rewrite Hos. }
  split; [done|]. split; [|split].
  - intros i item Hi.
    apply (Hnew i (attach (new_in_db item))).
    by rewrite !list_lookup_fmap, Hi.
  - intros k Hk. apply Hold, Hseq, Hk.
  - intros k [c Hk].
    destruct (decide (k < next_id db + Z.of_nat (length batch))) as [|Hbig];
      [lia|].
    rewrite Hbeyond in Hk by lia.
    assert (k < next_id db) by (apply Hseq; eauto). lia.
Qed.

(** What a batch that the database refuses leaves behind: the rows as
    they were, and the sequence not behind where it was. *)
Lemma create_processed_agent_data_refused
    (batch : list (ProcessedAgentData Float DateTime)) db e :
  flush_inserts without_time_zone (map attach (map new_in_db batch)) db
  = Raise e ->
  let db' :=
    snd (create_processed_agent_data without_time_zone failed_insert_uses
           batch db) in
  fst (create_processed_agent_data without_time_zone failed_insert_uses
         batch db) = Raise e /\
  table db' = table db /\
  next_id db <= next_id db'.
Proof.
  intros Hos; cbv zeta. unfold create_processed_agent_data. rewrite Hos.
  simpl. split; [done|]. split; [done|]. lia.
Qed.

(** What [createBatch] does on a batch that is not empty and that the
    database accepts: the rows are inserted under the next values of the
    sequence, in input order, and the call raises when it builds its
    response. *)
Lemma create_processed_agent_data_persists_then_raises
    (data : list (ProcessedAgentData Float DateTime)) db :
  data ≠ [] ->
  sequence_ahead db ->
  Forall fits data ->
  sequence_left (length data) db ->
  let db' :=
    snd (create_processed_agent_data without_time_zone failed_insert_uses
           data db) in
  fst (create_processed_agent_data without_time_zone failed_insert_uses
         data db) = Raise DetachedInstanceError /\
  next_id db' = next_id db + Z.of_nat (length data) /\
  (forall (i : nat) item, data !! i = Some item ->
     table db !! (next_id db + Z.of_nat i) = None /\
     table db' !! (next_id db + Z.of_nat i)
     = Some (stored without_time_zone (columns_of item))) /\
  (forall k, is_Some (table db !! k) -> table db' !! k = table db !! k) /\
  sequence_ahead db'.
Proof.
  intros Hdata Hseq Hfit Hleft; cbv zeta.
  destruct (create_processed_agent_data_accepted data db Hseq Hfit Hleft)
    as (os' & db' & _ & Hlen & -> & Hrest).
  simpl. split; [|done].
  apply db_models_to_response_models_detached.
  destruct os'; [|done]. destruct data; simplify_eq/=.
Qed.
End Crud.

(** C1, at a stored record and a replacement that differ in every field:
    the update request and the read that follows both answer with the new
    road state and with the user, accelerometer, gps and timestamp that the
    row had before, not with those of the replacement. *)
Theorem update_processed_agent_data_keeps_agent_data :
  let db := snd (example_create [example_stored] example_empty) in
  let db' := snd (update_processed_agent_data 1 example_replacement db) in
  fst (read_processed_agent_data 1 db)
  = Ok (mkProcessedAgentDataWithId 1 "normal" (agent_data example_stored)) /\
  fst (update_processed_agent_data 1 example_replacement db)
  = Ok (mkProcessedAgentDataWithId 1 "bumpy" (agent_data example_stored)) /\
  fst (read_processed_agent_data 1 db')
  = Ok (mkProcessedAgentDataWithId 1 "bumpy" (agent_data example_stored)) /\
  fst (read_processed_agent_data 1 db')
  ≠ Ok (mkProcessedAgentDataWithId 1 (road_state example_replacement)
          (agent_data example_replacement)).
Proof. cbv zeta. repeat split; vm_compute; congruence. Qed.

(** C5, at a batch of two records on the empty database: the two rows are
    inserted under the keys 1 and 2, in input order, and the call raises
    [DetachedInstanceError] instead of returning the two records. *)
Theorem create_processed_agent_data_raises_detached :
  example_create [example_stored; example_replacement] example_empty
  = (Raise DetachedInstanceError,
     mkDatabase
       (<[1 := db_columns (new_in_db example_stored)]>
          (<[2 := db_columns (new_in_db example_replacement)]> ∅))
       3).
Proof. vm_compute. reflexivity. Qed.

End StoreProofs.
(** ** More on the file datasource *)

Module AgentMore.
Import Agent.
Local Open Scope nat_scope.

Section WithConversions.
Context {Float DateTime : Type}.
Variable int_of_str : string -> option Z.
Variable float_of_str : string -> option Float.
Variable int_of_float : Float -> outcome Z.
Variable USER_ID : Z.
Variable fs : string -> option (list row).

(** X2: [startReading] returns exactly when the three files exist and
    each has a first line; the object then holds three fresh open files,
    each just after its header, whatever files it held before. *)
Theorem startReading_succeeds_iff (ds ds1 : FileDatasource) :
  startReading fs ds = (Ok tt, ds1) <->
  exists ha ra hg rg hp rp,
    fs (accelerometer_filename ds) = Some (ha :: ra) /\
    fs (gps_filename ds) = Some (hg :: rg) /\
    fs (parking_filename ds) = Some (hp :: rp) /\
    ds1 = opened_after (accelerometer_filename ds) (gps_filename ds)
            (parking_filename ds) (ha :: ra) (hg :: rg) (hp :: rp) 0.
Proof.
  split.
  - unfold startReading, bind, open_of, next_of, on_file, file_next, ret.
    destruct ds as [a g p fa fg fp]; simpl.
    destruct (fs a) as [[|ha ra]|]; simpl; try done.
    destruct (fs g) as [[|hg rg]|]; simpl; try done.
    destruct (fs p) as [[|hp rp]|]; simpl; try done.
    intros [= <-]. by exists ha, ra, hg, rg, hp, rp.
  - intros (ha & ra & hg & rg & hp & rp & Ha & Hg & Hp & ->).
    unfold startReading, bind, open_of, next_of, on_file, file_next, ret.
    destruct ds as [a g p fa fg fp]; simpl in *.
    rewrite Ha; simpl. rewrite Hg; simpl. rewrite Hp; simpl.
    by rewrite ?Nat.sub_0_r.
Qed.

(** X3: [startReading] raises [FileNotFoundError] at the first file that
    is missing and [StopIteration] at a first file without any line, and
    leaves the files that it had opened before open in the object. *)
Theorem startReading_failure (ds : FileDatasource) :
  (fs (accelerometer_filename ds) = None ->
     startReading fs ds = (Raise FileNotFoundError, ds)) /\
  (fs (accelerometer_filename ds) = Some [] ->
     startReading fs ds
     = (Raise StopIteration,
        set_file AccelerometerS (Some (mkFile [] 0 false)) ds)) /\
  (forall ha ra,
     fs (accelerometer_filename ds) = Some (ha :: ra) ->
     fs (gps_filename ds) = None ->
     startReading fs ds
     = (Raise FileNotFoundError,
        set_file AccelerometerS (Some (mkFile (ha :: ra) 1 false)) ds)) /\
  (forall ha ra hg rg,
     fs (accelerometer_filename ds) = Some (ha :: ra) ->
     fs (gps_filename ds) = Some (hg :: rg) ->
     fs (parking_filename ds) = None ->
     startReading fs ds
     = (Raise FileNotFoundError,
        set_file GpsS (Some (mkFile (hg :: rg) 1 false))
          (set_file AccelerometerS (Some (mkFile (ha :: ra) 1 false)) ds))).
Proof.
  unfold startReading, bind, open_of, next_of, on_file, file_next, ret.
  destruct ds as [a g p fa fg fp]; simpl.
  repeat split.
  - by intros ->.
  - by intros ->.
  - intros ha ra -> Hg; simpl. by rewrite Hg.
  - intros ha ra hg rg -> Hg Hp; simpl. rewrite Hg; simpl. by rewrite Hp.
Qed.

(** X4: [stopReading] always returns; it closes the files that the object
    holds and keeps their cursors, does nothing to an object that was never
    opened, and a second call changes nothing. *)
Theorem stopReading_closes (ds : FileDatasource) :
  let ds' := snd (stopReading ds) in
  stopReading ds = (Ok tt, ds') /\
  (forall s, get_file s ds' = file_close <$> get_file s ds) /\
  stopReading ds' = (Ok tt, ds') /\
  (forall a g p, stopReading (init a g p) = (Ok tt, init a g p)).
Proof.
  cbv zeta. unfold stopReading, bind, close_of.
  destruct ds as [a g p [fa|] [fg|] [fp|]]; simpl;
    repeat split; try done; by intros [].
Qed.

Lemma same_files_refl (ds : FileDatasource) : same_files ds ds.
Proof. by repeat split. Qed.

Lemma same_files_trans (ds1 ds2 ds3 : FileDatasource) :
  same_files ds1 ds2 -> same_files ds2 ds3 -> same_files ds1 ds3.
Proof.
  intros (Ha & Hg & Hp & Hf) (Ha' & Hg' & Hp' & Hf').
  repeat split; first [congruence | intros s; by rewrite Hf', Hf].
Qed.

Lemma same_files_set_file s f f' ds :
  get_file s ds = Some f -> file_content f' = file_content f ->
  same_files ds (set_file s (Some f') ds).
Proof.
  intros Hget Hcontent. destruct ds as [a g p fa fg fp].
  destruct s; simpl in *; subst; repeat split;
    intros []; simpl; by rewrite ?Hcontent.
Qed.

Lemma on_file_same_files {A} e s (m : M file A) ds :
  (forall f, file_content (snd (m f)) = file_content f) ->
  same_files ds (snd (on_file e s m ds)).
Proof.
  intros Hm. unfold on_file.
  destruct (get_file s ds) as [f|] eqn:Hget; [|apply same_files_refl].
  specialize (Hm f). destruct (m f) as [r f']; simpl in *.
  by apply (same_files_set_file s f).
Qed.

Lemma file_next_content f : file_content (snd (file_next f)) = file_content f.
Proof.
  unfold file_next, file_content.
  destruct (closed f) eqn:Hc; simpl; [by rewrite Hc|].
  destruct (lines f !! cursor f); simpl; by rewrite ?Hc.
Qed.

Lemma file_seek0_content f : file_content (snd (file_seek0 f)) = file_content f.
Proof.
  unfold file_seek0, file_content.
  destruct (closed f) eqn:Hc; simpl; by rewrite ?Hc.
Qed.

Lemma read_row_same_files s ds : same_files ds (snd (read_row s ds)).
Proof.
  unfold read_row, bind, reader, try_except.
  destruct (get_file s ds) as [f|] eqn:Hget; simpl; [|apply same_files_refl].
  destruct (closed f); simpl; [apply same_files_refl|].
  pose proof (on_file_same_files TypeError s file_next ds file_next_content)
    as H1. fold (next_of s) in H1.
  destruct (next_of s ds) as [[r|e] ds1]; simpl in *; [done|].
  destruct (decide (e = StopIteration)); simpl; [|done].
  pose proof (on_file_same_files AttributeError s file_seek0 ds1
                file_seek0_content) as H2. fold (seek0_of s) in H2.
  destruct (seek0_of s ds1) as [[[]|e2] ds2]; simpl in *;
    [|by eapply same_files_trans].
  pose proof (on_file_same_files TypeError s file_next ds2 file_next_content)
    as H3. fold (next_of s) in H3.
  destruct (next_of s ds2) as [[r3|e3] ds3]; simpl in *;
    [|by repeat (eapply same_files_trans; [|eassumption])].
  pose proof (on_file_same_files TypeError s file_next ds3 file_next_content)
    as H4. fold (next_of s) in H4.
  destruct (next_of s ds3) as [[r4|e4] ds4]; simpl in *;
    eapply same_files_trans; [|exact H4| |exact H4];
    eapply same_files_trans; [|exact H3| |exact H3];
    by eapply same_files_trans.
Qed.


Lemma _read_accelerometer_data_same_files ds :
  same_files ds (snd (_read_accelerometer_data int_of_str ds)).
Proof.
  unfold _read_accelerometer_data, bind, lift, ret.
  pose proof (read_row_same_files AccelerometerS ds) as H.
  destruct (read_row AccelerometerS ds) as [[r|e] ds1]; simpl in *; [|done].
  by destruct (unpack3 int_of_str r) as [[[vx vy] vz]|e].
Qed.

Lemma _read_gps_data_same_files ds :
  same_files ds (snd (_read_gps_data float_of_str ds)).
Proof.
  unfold _read_gps_data, bind, lift, ret.
  pose proof (read_row_same_files GpsS ds) as H.
  destruct (read_row GpsS ds) as [[r|e] ds1]; simpl in *; [|done].
  by destruct (unpack2 float_of_str r) as [[lon lat]|e].
Qed.

Lemma _read_parking_data_same_files ds :
  same_files ds (snd (_read_parking_data float_of_str int_of_float ds)).
Proof.
  unfold _read_parking_data, bind, lift, ret.
  pose proof (read_row_same_files ParkingS ds) as H.
  destruct (read_row ParkingS ds) as [[r|e] ds1]; simpl in *; [|done].
  destruct (unpack3 float_of_str r) as [[[cnt lon] lat]|e]; simpl; [|done].
  by destruct (int_of_float cnt).
Qed.

Lemma read_same_files (now : DateTime) ds :
  same_files ds
    (snd (read int_of_str float_of_str int_of_float USER_ID now ds)).
Proof.
  unfold read, bind, ret.
  pose proof (_read_accelerometer_data_same_files ds) as Ha.
  destruct (_read_accelerometer_data int_of_str ds) as [[va|e] ds1];
    simpl in *; [|done].
  pose proof (_read_gps_data_same_files ds1) as Hg.
  destruct (_read_gps_data float_of_str ds1) as [[vg|e] ds2];
    simpl in *; [|by eapply same_files_trans].
  pose proof (_read_parking_data_same_files ds2) as Hp.
  destruct (_read_parking_data float_of_str int_of_float ds2)
    as [[vp|e] ds3]; simpl in *;
    eapply same_files_trans; [|exact Hp| |exact Hp];
    by eapply same_files_trans.
Qed.

(** X7: whatever their outcomes, reads change nothing of the object but
    the cursors of its files: the file names, the lines of the files and
    which files are open or closed stay as they were. *)
Theorem reads_only_move_cursors (nows : list DateTime) (ds : FileDatasource) :
  same_files ds
    (after_reads int_of_str float_of_str int_of_float USER_ID nows ds).
Proof.
  revert ds. induction nows as [|now nows IH]; intros ds; simpl.
  - apply same_files_refl.
  - eapply same_files_trans; [apply (read_same_files now)|apply IH].
Qed.

(** X5: after [startReading] has found three files whose data rows all
    convert, the read that follows [k] reads returns, for each stream, the
    sample of its data row of index [k] modulo the number of its data rows,
    with the clock value of the call and the configured user. *)
Theorem read_cycles
    (a g p : string) (ha hg hp : row) (ra rg rp : list row)
    (nows : list DateTime) (now : DateTime) :
  fs a = Some (ha :: ra) ->
  fs g = Some (hg :: rg) ->
  fs p = Some (hp :: rp) ->
  ra ≠ [] -> rg ≠ [] -> rp ≠ [] ->
  Forall (fun r => is_ok (decode_accelerometer int_of_str r)) ra ->
  Forall (fun r => is_ok (decode_gps float_of_str r)) rg ->
  Forall (fun r => is_ok (decode_parking float_of_str int_of_float r)) rp ->
  let k := length nows in
  let opened := snd (startReading fs (init a g p)) in
  exists r_a r_g r_p va vg vp,
    ra !! (k mod length ra) = Some r_a /\
    rg !! (k mod length rg) = Some r_g /\
    rp !! (k mod length rp) = Some r_p /\
    decode_accelerometer int_of_str r_a = Ok va /\
    decode_gps float_of_str r_g = Ok vg /\
    decode_parking float_of_str int_of_float r_p = Ok vp /\
    fst (read int_of_str float_of_str int_of_float USER_ID now
           (after_reads int_of_str float_of_str int_of_float USER_ID nows
              opened))
    = Ok (mkAggregatedData va vg vp now USER_ID).
Proof.
  intros Ha Hg Hp Hra Hrg Hrp Hoka Hokg Hokp; cbv zeta.
  rewrite (AgentProofs.startReading_opened fs a g p ha hg hp ra rg rp Ha Hg Hp);
    simpl.
  rewrite (AgentProofs.after_reads_opened int_of_str float_of_str int_of_float
             USER_ID a g p ha hg hp ra rg rp) by done; simpl.
  destruct (AgentProofs.read_opened_after_ok int_of_str float_of_str
              int_of_float USER_ID a g p ha hg hp ra rg rp
              Hra Hrg Hrp Hoka Hokg Hokp (length nows) now)
    as (va & vg & vp & (r_a & Hr_a & Hva) & (r_g & Hr_g & Hvg)
        & (r_p & Hr_p & Hvp) & Hread).
  exists r_a, r_g, r_p, va, vg, vp. by rewrite Hread.
Qed.

(** X6: when the accelerometer file is open just after a header that no
    data row follows, [read] raises [StopIteration] and leaves the object
    as it was. *)
Theorem read_without_data_rows (now : DateTime) (ds : FileDatasource)
    (header : row) :
  accelerometer_file ds = Some (mkFile [header] 1 false) ->
  read int_of_str float_of_str int_of_float USER_ID now ds
  = (Raise StopIteration, ds).
Proof.
  intros Hfile. destruct ds as [a g p fa fg fp]; simpl in *; subst.
  reflexivity.
Qed.

End WithConversions.

Lemma startReading_succeeds_iff_witness :
  exists ha ra hg rg hp rp,
    example_fs "accelerometer.csv" = Some (ha :: ra) /\
    example_fs "gps.csv" = Some (hg :: rg) /\
    example_fs "parking.csv" = Some (hp :: rp) /\
    snd (example_start example_source)
    = opened_after "accelerometer.csv" "gps.csv" "parking.csv"
        (ha :: ra) (hg :: rg) (hp :: rp) 0.
Proof.
  apply (proj1 (startReading_succeeds_iff example_fs example_source
                  (snd (example_start example_source)))).
  reflexivity.
Defined.

Lemma startReading_failure_witness :
  startReading example_fs (init "accelerometer.csv" "missing.csv" "parking.csv")
  = (Raise FileNotFoundError,
     set_file AccelerometerS
       (Some (mkFile [ ["x"; "y"; "z"]; ["5000"; "0"; "9000"];
                       ["12"; "7"; "16700"] ] 1 false))
       (init "accelerometer.csv" "missing.csv" "parking.csv")).
Proof.
  apply (proj1 (proj2 (proj2 (startReading_failure example_fs
           (init "accelerometer.csv" "missing.csv" "parking.csv")))));
    reflexivity.
Defined.

Lemma read_cycles_witness :
  fst (example_read 13
         (after_reads decimal decimal Ok 42 [10; 11; 12]%Z
            (snd (example_start example_source))))
  = Ok (mkAggregatedData (mkAccelerometer 12 7 16700) (mkGps 30 50)%Z
          (mkParking 3 (mkGps 30 50))%Z 13%Z 42%Z).
Proof.
  set (ra := [ ["5000"; "0"; "9000"]; ["12"; "7"; "16700"] ]).
  set (rg := [ ["30"; "50"]; ["31"; "51"]; ["32"; "52"] ]).
  set (rp := [ ["3"; "30"; "50"] ]).
  assert (ra ≠ []) as Hra by discriminate.
  assert (rg ≠ []) as Hrg by discriminate.
  assert (rp ≠ []) as Hrp by discriminate.
  assert (Forall (fun r => is_ok (decode_accelerometer decimal r)) ra) as Hoka
    by (repeat constructor; eexists; reflexivity).
  assert (Forall (fun r => is_ok (decode_gps decimal r)) rg) as Hokg
    by (repeat constructor; eexists; reflexivity).
  assert (Forall (fun r => is_ok (decode_parking decimal Ok r)) rp) as Hokp
    by (repeat constructor; eexists; reflexivity).
  pose proof
    (read_cycles (Float:=Z) decimal decimal Ok 42 example_fs
       "accelerometer.csv" "gps.csv" "parking.csv"
       ["x"; "y"; "z"] ["longitude"; "latitude"]
       ["empty_count"; "longitude"; "latitude"] ra rg rp
       [10; 11; 12]%Z 13%Z eq_refl eq_refl eq_refl Hra Hrg Hrp
       Hoka Hokg Hokp) as H.
  cbv zeta in H.
  destruct H as (r_a & r_g & r_p & va & vg & vp & Hr_a & Hr_g & Hr_p & Hva
                 & Hvg & Hvp & Hread).
  injection Hr_a as <-. injection Hr_g as <-. injection Hr_p as <-.
  vm_compute in Hva, Hvg, Hvp.
  injection Hva as <-. injection Hvg as <-. injection Hvp as <-.
  exact Hread.
Defined.

Lemma read_without_data_rows_witness :
  example_read 0
    (mkFileDatasource "a.csv" "gps.csv" "parking.csv"
       (Some (mkFile [ ["x"; "y"; "z"] ] 1 false)) None None)
  = (Raise StopIteration,
     mkFileDatasource "a.csv" "gps.csv" "parking.csv"
       (Some (mkFile [ ["x"; "y"; "z"] ] 1 false)) None None).
Proof.
  apply (read_without_data_rows (Float:=Z) decimal decimal Ok 42 0%Z
           (mkFileDatasource "a.csv" "gps.csv" "parking.csv"
              (Some (mkFile [ ["x"; "y"; "z"] ] 1 false)) None None)
           ["x"; "y"; "z"]).
  reflexivity.
Defined.

End AgentMore.

(** ** More on the classifier *)

Module EdgeMore.
Import Edge.

(** X1: the label tells the range of z: it is "bumpy" exactly below
    10000, "hilly" exactly above 16600, "normal" exactly in between, and
    never anything else. *)
Theorem classify_road_state_label (a : AccelerometerData) :
  (classify_road_state a = "bumpy" <-> z a < 10000) /\
  (classify_road_state a = "hilly" <-> z a > 16600) /\
  (classify_road_state a = "normal" <-> 10000 <= z a <= 16600) /\
  classify_road_state a ∈ ["bumpy"; "hilly"; "normal"].
Proof.
  destruct (EdgeProofs.classify_road_state_cases a)
    as [[Hz ->]|[[Hz ->]|[Hz ->]]];
    (split; [|split; [|split]]);
    try (split; [intros; first [lia | discriminate] | intros; first [lia | reflexivity]]).
  - apply elem_of_cons; by left.
  - apply elem_of_cons; right. apply elem_of_cons; by left.
  - do 2 (apply elem_of_cons; right). apply elem_of_cons; by left.
Qed.

Lemma classify_road_state_label_witness :
  z (mkAccelerometerData 0 0 16601) > 16600.
Proof.
  apply (proj1 (proj1 (proj2 (classify_road_state_label
                                (mkAccelerometerData 0 0 16601))))).
  reflexivity.
Defined.

End EdgeMore.

(** ** More on the store *)

Module StoreMore.
Import Store.

Section Crud.
Context {Float DateTime : Type}.
Variable without_time_zone : DateTime -> DateTime.
Variable failed_insert_uses :
  list (columns Float DateTime) -> database Float DateTime -> nat.
Implicit Types (db : database Float DateTime) (c : columns Float DateTime).
Implicit Types (data : ProcessedAgentData Float DateTime).

Lemma response_of_columns_of k data :
  response_of k (columns_of data)
  = mkProcessedAgentDataWithId k (road_state data) (agent_data data).
Proof. by destruct data as [rs [u [vx vy vz] [lat lon] t]]. Qed.

Lemma query_first_absent k data db :
  table db !! k = None ->
  read_processed_agent_data k db = (Raise (HTTPException 404), db) /\
  update_processed_agent_data k data db = (Raise (HTTPException 404), db) /\
  delete_processed_agent_data k db = (Raise (HTTPException 404), db).
Proof.
  intros Hk.
  unfold read_processed_agent_data, update_processed_agent_data,
    delete_processed_agent_data, query_first.
  by rewrite Hk.
Qed.

(** X12: a request for an identifier that has no row, be it a read, an
    update or a delete, raises the 404 [HTTPException] and leaves the
    database as it was. *)
Theorem absent_id_not_found k data db :
  table db !! k = None ->
  read_processed_agent_data k db = (Raise (HTTPException 404), db) /\
  update_processed_agent_data k data db = (Raise (HTTPException 404), db) /\
  delete_processed_agent_data k db = (Raise (HTTPException 404), db).
Proof. apply query_first_absent. Qed.

(** What a read makes of the row of a record. *)
Lemma response_of_stored k data :
  response_of k (stored without_time_zone (columns_of data))
  = mkProcessedAgentDataWithId k (road_state data)
      (mkAgentData (user_id (agent_data data))
         (accelerometer (agent_data data)) (gps (agent_data data))
         (without_time_zone (timestamp (agent_data data)))).
Proof. by destruct data as [rs [u [vx vy vz] [lat lon] t]]. Qed.

(** X13: on a database whose sequence is ahead of its keys and has values
    left for the batch, a record of a batch whose users all fit their
    column is read back, after [create_processed_agent_data], under its
    key, the value of the sequence at the call plus its position in the
    batch: with the road state, the user, the accelerometer and the gps as
    they were submitted, and with the timestamp as a column without time
    zone keeps it; when that is the timestamp itself, the read returns the
    agent data as submitted. *)
Theorem create_then_read
    (batch : list (ProcessedAgentData Float DateTime)) db (i : nat) data :
  sequence_ahead db ->
  Forall fits batch ->
  sequence_left (length batch) db ->
  batch !! i = Some data ->
  let db' :=
    snd (create_processed_agent_data without_time_zone failed_insert_uses
           batch db) in
  let k := next_id db + Z.of_nat i in
  read_processed_agent_data k db'
  = (Ok (mkProcessedAgentDataWithId k (road_state data)
           (mkAgentData (user_id (agent_data data))
              (accelerometer (agent_data data)) (gps (agent_data data))
              (without_time_zone (timestamp (agent_data data))))), db') /\
  (without_time_zone (timestamp (agent_data data))
   = timestamp (agent_data data) ->
   read_processed_agent_data k db'
   = (Ok (mkProcessedAgentDataWithId k (road_state data) (agent_data data)),
      db')).
Proof.
  intros Hseq Hfit Hleft Hi; cbv zeta.
  destruct (StoreProofs.create_processed_agent_data_accepted
              without_time_zone failed_insert_uses batch db Hseq Hfit Hleft)
    as (os' & db' & _ & _ & -> & _ & Hnew & _).
  simpl. destruct (Hnew i data Hi) as [_ Hrow].
  rewrite (StoreProofs.read_processed_agent_data_found _ _ _ Hrow).
  rewrite response_of_stored. split; [done|].
  intros ->. by destruct data as [rs [u acc g t]].
Qed.

(** X14: on a database whose sequence is ahead of its keys, a batch of K
    records whose users all fit their column, with K values left in the
    sequence, moves the sequence K further and puts the records, in input
    order, under the K keys in between, none of which had a row; the rows
    that were there stay as they were and the sequence stays ahead of the
    keys.  A batch with a user that does not fit its column, or for which
    the sequence has not enough values left, raises [DataError] and leaves
    no row behind: the table is as it was, and the sequence is not behind
    where it was.  The empty batch returns the empty list and changes
    nothing. *)
Theorem create_processed_agent_data_fresh_keys
    (batch : list (ProcessedAgentData Float DateTime)) db :
  sequence_ahead db ->
  let create :=
    create_processed_agent_data without_time_zone failed_insert_uses in
  let db' := snd (create batch db) in
  (batch = [] -> create batch db = (Ok [], db)) /\
  (Forall fits batch -> sequence_left (length batch) db ->
     next_id db' = next_id db + Z.of_nat (length batch) /\
     (forall (i : nat) data, batch !! i = Some data ->
        table db !! (next_id db + Z.of_nat i) = None /\
        table db' !! (next_id db + Z.of_nat i)
        = Some (stored without_time_zone (columns_of data))) /\
     (forall k, is_Some (table db !! k) -> table db' !! k = table db !! k)) /\
  (Exists (fun data => ~ fits data) batch \/
   (batch ≠ [] /\ ~ sequence_left (length batch) db) ->
     fst (create batch db) = Raise DataError /\
     table db' = table db /\
     next_id db <= next_id db') /\
  sequence_ahead db'.
Proof.
  intros Hseq; cbv zeta. split; [by intros ->|].
  split; [|split].
  - intros Hfit Hleft.
    destruct (StoreProofs.create_processed_agent_data_accepted
                without_time_zone failed_insert_uses batch db Hseq Hfit Hleft)
      as (os' & db' & _ & _ & -> & Hnext & Hnew & Hold & _).
    done.
  - intros Hbad.
    destruct (flush_inserts without_time_zone
                (map attach (map new_in_db batch)) db)
      as [[os' db']|e] eqn:Hos.
    + exfalso.
      apply StoreProofs.flush_inserts_ok in Hos as (_ & Hfit & Hleft & _).
      apply StoreProofs.fits_new_in_db in Hfit.
      destruct Hbad as [Hbad|[Hne Hbad]].
      * apply Exists_exists in Hbad as (data & Hin & Hout).
        apply Hout. by apply (proj1 (Forall_forall _ _) Hfit).
      * apply Hbad. rewrite !length_map in Hleft. apply Hleft.
        by destruct batch.
    + pose proof (StoreProofs.flush_inserts_raise _ _ _ _ Hseq Hos) as ->.
      by apply StoreProofs.create_processed_agent_data_refused.
  - unfold create_processed_agent_data.
    destruct (flush_inserts without_time_zone
                (map attach (map new_in_db batch)) db)
      as [[os' db']|e] eqn:Hos; simpl.
    + pose proof (StoreProofs.flush_inserts_ok _ _ _ _ _ Hos)
        as (_ & _ & _ & Hnext & _ & Hold & Hbeyond).
      intros k [c Hk].
      destruct (decide (k < next_id db')) as [|Hbig]; [done|].
      rewrite Hbeyond in Hk by lia.
      assert (k < next_id db) by (apply Hseq; eauto). lia.
    + intros k Hk. simpl in *. apply Hseq in Hk. lia.
Qed.

(** X15: an update of a stored record returns, puts the submitted road
    state into its row as it is, and changes no other row, nor the set of
    keys, nor the sequence; the sequence stays ahead of the keys. *)
Theorem update_processed_agent_data_frame k data db c :
  table db !! k = Some c ->
  let db' := snd (update_processed_agent_data k data db) in
  is_ok (fst (update_processed_agent_data k data db)) /\
  (col_road_state _ _ <$> table db' !! k) = Some (road_state data) /\
  (forall k', k' ≠ k -> table db' !! k' = table db !! k') /\
  dom (table db') = dom (table db) /\
  next_id db' = next_id db /\
  (sequence_ahead db -> sequence_ahead db').
Proof.
  intros Hk; cbv zeta.
  rewrite (StoreProofs.update_processed_agent_data_found k data db c Hk); simpl.
  split; [by eexists|]. split; [by rewrite lookup_insert_eq|].
  split; [by intros k' Hne; apply lookup_insert_ne|].
  split.
  { apply dom_insert_lookup_L. by eexists. }
  split; [done|].
  intros Hseq k' [c' Hk']; simpl in *.
  destruct (decide (k' = k)) as [->|Hne].
  - apply Hseq; eauto.
  - rewrite lookup_insert_ne in Hk' by done. apply Hseq; eauto.
Qed.

Lemma delete_processed_agent_data_found k db c :
  table db !! k = Some c ->
  delete_processed_agent_data k db
  = (Ok (response_of k c), mkDatabase (delete k (table db)) (next_id db)).
Proof.
  intros Hk. unfold delete_processed_agent_data, query_first. by rewrite Hk.
Qed.

(** X16: deleting a stored record returns what a read of it returned;
    afterwards a read, an update and a second delete of that identifier
    raise the 404 [HTTPException], and the reads of the other identifiers
    return what they returned before. *)
Theorem delete_then_not_found k data db c :
  table db !! k = Some c ->
  let db' := snd (delete_processed_agent_data k db) in
  fst (delete_processed_agent_data k db)
  = fst (read_processed_agent_data k db) /\
  read_processed_agent_data k db' = (Raise (HTTPException 404), db') /\
  update_processed_agent_data k data db' = (Raise (HTTPException 404), db') /\
  delete_processed_agent_data k db' = (Raise (HTTPException 404), db') /\
  (forall k', k' ≠ k ->
     read_processed_agent_data k' db'
     = (fst (read_processed_agent_data k' db), db')).
Proof.
  intros Hk; cbv zeta.
  rewrite (delete_processed_agent_data_found k db c Hk); simpl.
  rewrite (StoreProofs.read_processed_agent_data_found k db c Hk); simpl.
  split; [done|].
  assert (table (mkDatabase (delete k (table db)) (next_id db)) !! k = None)
    as Hgone by apply lookup_delete_eq.
  destruct (query_first_absent k data _ Hgone) as (Hr & Hu & Hd).
  split; [done|]. split; [done|]. split; [done|].
  intros k' Hne. unfold read_processed_agent_data, query_first; simpl.
  rewrite lookup_delete_ne by done.
  by destruct (table db !! k').
Qed.

(** A create, whether it returns or raises, touches no key that the
    sequence has passed. *)
Lemma create_processed_agent_data_old_keys
    (batch : list (ProcessedAgentData Float DateTime)) db k :
  k < next_id db ->
  table (snd (create_processed_agent_data without_time_zone
                failed_insert_uses batch db)) !! k
  = table db !! k.
Proof.
  intros Hk. unfold create_processed_agent_data.
  destruct (flush_inserts without_time_zone
              (map attach (map new_in_db batch)) db)
    as [[os' db']|e] eqn:Hos; simpl; [|done].
  apply StoreProofs.flush_inserts_ok in Hos as (_ & _ & _ & _ & _ & Hold & _).
  by apply Hold.
Qed.

(** X17: a delete leaves the sequence where it was, ahead of the keys, so
    that no batch created afterwards gets the deleted identifier: the keys
    it hands out differ from it and the deleted key stays without a row. *)
Theorem deleted_id_not_reused k db c
    (batch : list (ProcessedAgentData Float DateTime)) :
  sequence_ahead db ->
  table db !! k = Some c ->
  let db1 := snd (delete_processed_agent_data k db) in
  let db2 :=
    snd (create_processed_agent_data without_time_zone failed_insert_uses
           batch db1) in
  sequence_ahead db1 /\
  next_id db1 = next_id db /\
  table db2 !! k = None /\
  (forall (i : nat), (i < length batch)%nat -> next_id db1 + Z.of_nat i ≠ k).
Proof.
  intros Hseq Hk; cbv zeta.
  rewrite (delete_processed_agent_data_found k db c Hk); simpl.
  assert (k < next_id db) as Hlt by (apply Hseq; eauto).
  split.
  { intros k' [c' Hk']; simpl in *.
    apply lookup_delete_Some in Hk' as [_ Hk']. apply Hseq; eauto. }
  split; [done|]. split; [|intros; lia].
  rewrite create_processed_agent_data_old_keys by done.
  apply lookup_delete_eq.
Qed.

Lemma db_models_to_response_models_loaded db (l : list (Z * columns Float DateTime)) :
  db_models_to_response_models _ _ db
    (map (fun kc => mkInDB _ _ (Some (fst kc)) (snd kc) false true []) l)
  = Ok (map (fun kc => response_of (fst kc) (snd kc)) l).
Proof.
  induction l as [|[k c] l IH]; simpl; [done|]. by rewrite IH.
Qed.

Section Scan.
Variable scan_order :
  gmap Z (columns Float DateTime) -> list (Z * columns Float DateTime).
Hypothesis scan_order_rows : forall m, scan_order m ≡ₚ map_to_list m.

(** X18: listing returns, in the order of the scan, one response per row
    of the table and nothing else, and leaves the database as it was. *)
Theorem list_processed_agent_data_all_rows db :
  exists rs,
    list_processed_agent_data scan_order db = (Ok rs, db) /\
    rs ≡ₚ map (fun kc => response_of (fst kc) (snd kc))
            (map_to_list (table db)) /\
    length rs = size (table db) /\
    (forall r, r ∈ rs <->
       exists k c, table db !! k = Some c /\ r = response_of k c).
Proof.
  exists (map (fun kc => response_of (fst kc) (snd kc)) (scan_order (table db))).
  unfold list_processed_agent_data, query_all.
  rewrite db_models_to_response_models_loaded.
  split; [done|]. split; [by rewrite scan_order_rows|].
  split.
  { rewrite length_map, scan_order_rows. apply length_map_to_list. }
  intros r. rewrite list_elem_of_fmap. split.
  - intros ([k c] & -> & Hin). rewrite scan_order_rows in Hin.
    apply elem_of_map_to_list in Hin. eauto.
  - intros (k & c & Hk & ->). exists (k, c). split; [done|].
    rewrite scan_order_rows. by apply elem_of_map_to_list.
Qed.
End Scan.
End Crud.

(** X8: after a socket has connected it is in the set of its user, which
    is the former set (none counts as empty) with the socket added; the
    sets of the other users are as before, and registering the socket once
    more changes nothing. *)
Theorem subscribe_registers user_id websocket (subscriptions : gmap Z (gset WebSocket)) :
  let subscriptions' := subscribe user_id websocket subscriptions in
  subscriptions' !! user_id
  = Some ((subscriptions !!! user_id) ∪ {[websocket]}) /\
  websocket ∈ subscriptions' !!! user_id /\
  (forall other, other ≠ user_id ->
     subscriptions' !! other = subscriptions !! other) /\
  subscribe user_id websocket subscriptions' = subscriptions'.
Proof.
  cbv zeta. rewrite !StoreProofs.subscribe_insert.
  rewrite lookup_total_insert_eq, lookup_insert_eq.
  split; [done|]. split; [set_solver|].
  split; [by intros other Hne; apply lookup_insert_ne|].
  rewrite insert_insert_eq. f_equal.
  apply set_eq. intros w. rewrite !elem_of_union. tauto.
Qed.

(** X9: an endpoint whose receive loop ends with [WebSocketDisconnect]
    returns and leaves the set of the user without the socket; one whose
    loop ends with any other exception lets it through and leaves the
    socket registered. *)
Theorem websocket_endpoint_lifetime websocket user_id (ends_with : exn)
    (subscriptions : gmap Z (gset WebSocket)) :
  (ends_with = WebSocketDisconnect ->
     websocket_endpoint websocket user_id ends_with subscriptions
     = (Ok tt,
        <[user_id := (subscriptions !!! user_id) ∖ {[websocket]}]>
          subscriptions)) /\
  (ends_with ≠ WebSocketDisconnect ->
     websocket_endpoint websocket user_id ends_with subscriptions
     = (Raise ends_with, subscribe user_id websocket subscriptions)).
Proof.
  unfold websocket_endpoint, try_except. split.
  - intros ->. rewrite decide_True by done.
    rewrite StoreProofs.subscribe_insert. unfold unsubscribe.
    rewrite lookup_insert_eq, decide_True by set_solver.
    rewrite insert_insert_eq. f_equal. f_equal.
    apply set_eq. intros w. rewrite elem_of_difference, elem_of_union,
      elem_of_difference. tauto.
  - intros Hne. by rewrite decide_False.
Qed.

Section Registry.
Context {Data : Type}.
Variable json_dumps : Data -> outcome string.
Variable iteration_order : gset WebSocket -> list WebSocket.
Hypothesis iteration_order_elements :
  forall s, iteration_order s ≡ₚ elements s.
Implicit Types (subscriptions : gmap Z (gset WebSocket)).

Lemma for_each_send_json_prefix (data : Data) (l : list WebSocket)
    (n : network) :
  exists l', l' `prefix_of` l /\
    Forall (fun w => failing n !! w = None) l' /\
    snd (for_each l
           (fun websocket n =>
              match json_dumps data with
              | Ok msg => send_json websocket msg n
              | Raise e => (Raise e, n)
              end) n)
    = mkNetwork (failing n) (sent n ++ messages json_dumps data l')%list.
Proof.
  unfold messages. destruct (json_dumps data) as [msg|e].
  - revert n. induction l as [|w l IH]; intros n; simpl.
    + exists []. split; [done|]. split; [constructor|].
      rewrite app_nil_r. by destruct n.
    + unfold bind, send_json at 1.
      destruct (failing n !! w) as [e|] eqn:Hw.
      * exists []. split; [apply prefix_nil|]. split; [constructor|].
        simpl. rewrite app_nil_r. by destruct n.
      * destruct (IH (mkNetwork (failing n) (sent n ++ [(w, msg)])%list))
          as (l' & Hpre & Hok & Hsnd).
        exists (w :: l'). split; [by apply prefix_cons|].
        split; [by constructor|].
        rewrite Hsnd; simpl. by rewrite <- app_assoc.
  - exists []. split; [apply prefix_nil|]. split; [constructor|].
    rewrite app_nil_r. destruct l; simpl; by destruct n.
Qed.

Lemma publish_sends_to_listeners
    subscriptions (user_id : Z) (data : Data) (n : network) :
  let n' :=
    snd (send_data_to_subscribers json_dumps iteration_order subscriptions
           user_id data n) in
  failing n' = failing n /\
  exists new : list WebSocket,
    sent n' = (sent n ++ messages json_dumps data new)%list /\
    NoDup new /\
    (forall w, w ∈ new ->
       w ∈ subscriptions !!! user_id /\ failing n !! w = None).
Proof.
  cbv zeta. unfold send_data_to_subscribers.
  rewrite lookup_total_alt.
  destruct (subscriptions !! user_id) as [s|] eqn:Hs; simpl.
  - destruct (for_each_send_json_prefix data (iteration_order s) n)
      as (l' & Hpre & Hok & Hsnd).
    rewrite Hsnd; simpl. split; [done|]. exists l'. split; [done|].
    assert (NoDup (iteration_order s)) as Hnodup.
    { rewrite (iteration_order_elements s). apply NoDup_elements. }
    destruct Hpre as [rest Hrest]. rewrite Hrest in Hnodup.
    split; [by apply NoDup_app in Hnodup as [? _]|].
    intros w Hw. split.
    + apply elem_of_elements. rewrite <- (iteration_order_elements s), Hrest.
      apply elem_of_app. by left.
    + by apply (proj1 (Forall_forall _ _) Hok).
  - split; [done|]. exists []. unfold messages.
    replace (match json_dumps data with
             | Ok msg => map (fun w => (w, msg)) []
             | Raise _ => []
             end) with (@nil (WebSocket * string))
      by (by destruct (json_dumps data)).
    rewrite app_nil_r.
    split; [done|]. split; [constructor|].
    intros w Hw. by apply elem_of_nil in Hw.
Qed.

(** X10: whatever its outcome, publishing leaves the failing sockets as
    they were and adds to the messages sent nothing but the dumped data,
    at most once per socket, and only for sockets that are registered for
    the user and whose send does not fail; data that has no JSON form adds
    nothing. *)
Theorem send_data_to_subscribers_only_listeners
    subscriptions (user_id : Z) (data : Data) (n : network) :
  let n' :=
    snd (send_data_to_subscribers json_dumps iteration_order subscriptions
           user_id data n) in
  failing n' = failing n /\
  exists new : list WebSocket,
    (forall msg, json_dumps data = Ok msg ->
       sent n' = (sent n ++ map (fun w => (w, msg)) new)%list) /\
    (forall e, json_dumps data = Raise e -> sent n' = sent n) /\
    NoDup new /\
    (forall w, w ∈ new ->
       w ∈ subscriptions !!! user_id /\ failing n !! w = None).
Proof.
  cbv zeta.
  destruct (publish_sends_to_listeners subscriptions user_id data n)
    as (Hfail & new & Hsent & Hnodup & Hnew).
  split; [done|]. exists new. unfold messages in Hsent.
  split; [|split; [|done]].
  - intros msg Hmsg. by rewrite Hmsg in Hsent.
  - intros e He. rewrite He, app_nil_r in Hsent. done.
Qed.


End Registry.

Lemma example_db_row :
  table example_db !! 1 = Some (columns_of example_stored).
Proof. reflexivity. Defined.

Lemma example_db_sequence_ahead : sequence_ahead example_db.
Proof.
  intros k [c Hk]. destruct (decide (k = 1)) as [->|Hne]; [reflexivity|].
  assert (table example_db = <[1 := columns_of example_stored]> ∅) as Hrows
    by reflexivity.
  rewrite Hrows, lookup_insert_ne in Hk by done.
  by rewrite lookup_empty in Hk.
Defined.

Lemma example_replacement_fits : Forall fits [example_replacement].
Proof. repeat constructor; vm_compute; discriminate. Defined.

Lemma example_db_sequence_left : sequence_left 1 example_db.
Proof. split; vm_compute; discriminate. Defined.

Lemma create_processed_agent_data_fresh_keys_witness :
  next_id (snd (example_create [example_replacement] example_db))
  = 2 + Z.of_nat 1.
Proof.
  destruct (create_processed_agent_data_fresh_keys
              (fun t => t) (fun rows _ => length rows)
              [example_replacement] example_db example_db_sequence_ahead)
    as (_ & Hok & _).
  destruct (Hok example_replacement_fits example_db_sequence_left)
    as (Hnext & _).
  exact Hnext.
Defined.

Lemma absent_id_not_found_witness :
  read_processed_agent_data 5 example_db = (Raise (HTTPException 404), example_db).
Proof.
  apply (absent_id_not_found 5 example_replacement example_db). reflexivity.
Defined.

Lemma create_then_read_witness :
  fst (read_processed_agent_data 2
         (snd (example_create [example_replacement] example_db)))
  = Ok (mkProcessedAgentDataWithId 2 "bumpy" (agent_data example_replacement)).
Proof.
  destruct (create_then_read (fun t => t) (fun rows _ => length rows)
              [example_replacement] example_db 0 example_replacement
              example_db_sequence_ahead example_replacement_fits
              example_db_sequence_left eq_refl)
    as [_ Hnaive].
  exact (f_equal fst (Hnaive eq_refl)).
Defined.

Lemma update_processed_agent_data_frame_witness :
  next_id (snd (update_processed_agent_data 1 example_replacement example_db))
  = 2.
Proof.
  destruct (update_processed_agent_data_frame 1 example_replacement example_db
              (columns_of example_stored) example_db_row)
    as (_ & _ & _ & _ & Hnext & _).
  exact Hnext.
Defined.

Lemma delete_then_not_found_witness :
  fst (read_processed_agent_data 1
         (snd (delete_processed_agent_data 1 example_db)))
  = Raise (HTTPException 404).
Proof.
  destruct (delete_then_not_found 1 example_replacement example_db
              (columns_of example_stored) example_db_row)
    as (_ & Hread & _).
  exact (f_equal fst Hread).
Defined.

Lemma deleted_id_not_reused_witness :
  table (snd (example_create [example_replacement]
                (snd (delete_processed_agent_data 1 example_db)))) !! 1
  = None.
Proof.
  destruct (deleted_id_not_reused (fun t => t) (fun rows _ => length rows)
              1 example_db (columns_of example_stored)
              [example_replacement] example_db_sequence_ahead example_db_row)
    as (_ & _ & Hgone & _).
  exact Hgone.
Defined.

Lemma list_processed_agent_data_all_rows_witness :
  exists rs,
    list_processed_agent_data map_to_list example_db = (Ok rs, example_db) /\
    length rs = 1%nat.
Proof.
  destruct (list_processed_agent_data_all_rows map_to_list
              (fun m => reflexivity _) example_db)
    as (rs & Hlist & _ & Hlen & _).
  exists rs. split; [exact Hlist|]. exact Hlen.
Defined.

Lemma subscribe_registers_witness :
  subscribe 3 1%positive ∅ !! 4 = (∅ : gmap Z (gset WebSocket)) !! 4.
Proof.
  apply (proj1 (proj2 (proj2 (subscribe_registers 3 1%positive ∅)))).
  discriminate.
Defined.

Lemma websocket_endpoint_lifetime_witness :
  websocket_endpoint 5%positive 3 WebSocketDisconnect example_subscriptions
  = (Ok tt,
     <[3 := (example_subscriptions !!! 3) ∖ {[5%positive]}]>
       example_subscriptions) /\
  websocket_endpoint 5%positive 3 KeyError example_subscriptions
  = (Raise KeyError, subscribe 3 5%positive example_subscriptions).
Proof.
  split.
  - apply (proj1 (websocket_endpoint_lifetime 5%positive 3
                    WebSocketDisconnect example_subscriptions)). reflexivity.
  - apply (proj2 (websocket_endpoint_lifetime 5%positive 3 KeyError
                    example_subscriptions)).
    discriminate.
Defined.

Lemma send_data_to_subscribers_only_listeners_witness :
  failing (snd (send_data_to_subscribers example_dumps elements
                  example_subscriptions 3 DataNone example_network))
  = failing example_network.
Proof.
  apply (send_data_to_subscribers_only_listeners example_dumps
           elements (fun s => reflexivity _) example_subscriptions 3
           DataNone example_network).
Defined.


End StoreMore.
